(** * The team3 asset contract (lib/assetTransfer.js)

    A shallow embedding of the chaincode class [AssetTransfer] and of the
    small part of its environment that its transactions touch:

    - the text encoders [JSON.stringify] and json-stringify-deterministic,
      and the key sorter sort-keys-recursive;
    - the ledger stub ([getState], [putState], [deleteState],
      [getStateByRange]) over a finite map from keys to stored bytes;
    - the seven transactions of the class, written in a state-and-exception
      monad in the order of the JavaScript statements.

    Text is a [string]: the UTF-8 bytes of well-formed text, which is what a
    peer hands to a transaction and what [Buffer.from] and [toString] convert
    back and forth without change.  Numbers are integers; the contract does no
    arithmetic on them, it only prints them. *)

From Stdlib Require Import ZArith NArith String Ascii List Decimal DecimalString
  DecimalPos DecimalZ.
From stdpp Require Import base option list gmap strings sorting.

Local Set Warnings "-register-all".

Local Open Scope string_scope.
Local Open Scope Z_scope.

(* ===================================================================== *)
(** * JavaScript values that occur in the contract *)
(* ===================================================================== *)

(** A value as [JSON.parse] builds it and [JSON.stringify] prints it.  An
    object is the list of its own properties in property order. *)
Inductive value : Type :=
| VNull
| VBool (b : bool)
| VNum (n : Z)
| VStr (s : string)
| VArr (items : list value)
| VObj (props : list (string * value)).

(** What an argument of a transaction can be: text, or a number. *)
Inductive scalar : Type :=
| Str (s : string)
| Num (n : Z).

(** The object literals of the contract: scalars at the leaves, nested
    objects above them ([Readings] inside an asset). *)
Inductive record : Type :=
| Leaf (x : scalar)
| Obj (props : list (string * record)).

Definition scalar_value (x : scalar) : value :=
  match x with
  | Str s => VStr s
  | Num n => VNum n
  end.

Fixpoint to_value (r : record) : value :=
  match r with
  | Leaf x => scalar_value x
  | Obj props => VObj (map (fun kv => (fst kv, to_value (snd kv))) props)
  end.

(** [obj[key]] on a property list: the value of the first property named
    [key], if there is one. *)
Fixpoint get_prop {A : Type} (props : list (string * A)) (key : string) : option A :=
  match props with
  | [] => None
  | (k, v) :: rest => if String.eqb k key then Some v else get_prop rest key
  end.

(** [obj[key] = v]: replaces the value of an existing property in place, and
    appends a new property otherwise. *)
Fixpoint set_prop {A : Type} (props : list (string * A)) (key : string) (v : A)
  : list (string * A) :=
  match props with
  | [] => [(key, v)]
  | (k, w) :: rest =>
      if String.eqb k key then (k, v) :: rest else (k, w) :: set_prop rest key v
  end.

Definition field (v : value) (key : string) : option value :=
  match v with
  | VObj props => get_prop props key
  | _ => None
  end.

(** [Object.keys(obj)]. *)
Definition keys {A : Type} (props : list (string * A)) : list string := map fst props.

(* ===================================================================== *)
(** * JSON.stringify *)
(* ===================================================================== *)

Definition dquote : ascii := "034"%char.
Definition backslash : ascii := "092"%char.

Definition hex_digit (n : N) : ascii :=
  if (n <? 10)%N then ascii_of_N (48 + n) else ascii_of_N (87 + n).

(** QuoteJSONString, one character: the quote, the backslash and the control
    characters are escaped, everything else is copied. *)
Definition escape_char (c : ascii) : string :=
  if Ascii.eqb c dquote then String backslash (String dquote "")
  else if Ascii.eqb c backslash then String backslash (String backslash "")
  else if Ascii.eqb c "008" then String backslash "b"
  else if Ascii.eqb c "012" then String backslash "f"
  else if Ascii.eqb c "010" then String backslash "n"
  else if Ascii.eqb c "013" then String backslash "r"
  else if Ascii.eqb c "009" then String backslash "t"
  else if (N_of_ascii c <? 32)%N then
    String backslash
      (String "u" (String "0" (String "0"
         (String (hex_digit (N_of_ascii c / 16))
            (String (hex_digit (N_of_ascii c mod 16)) "")))))
  else String c "".

Fixpoint escape (s : string) : string :=
  match s with
  | "" => ""
  | String c s' => escape_char c +:+ escape s'
  end.

Definition quote (s : string) : string :=
  String dquote (escape s +:+ String dquote "").

(** Number::toString on an integer. *)
Definition print_Z (n : Z) : string := NilEmpty.string_of_int (Z.to_int n).

(** [Array.prototype.join]. *)
Definition join (sep : string) (parts : list string) : string :=
  String.concat sep parts.

Definition print_prop (k : string) (text : string) : string :=
  quote k +:+ ":" +:+ text.

Fixpoint JSON_stringify (v : value) : string :=
  match v with
  | VNull => "null"
  | VBool true => "true"
  | VBool false => "false"
  | VNum n => print_Z n
  | VStr s => quote s
  | VArr items => "[" +:+ join "," (map JSON_stringify items) +:+ "]"
  | VObj props =>
      "{" +:+ join "," (map (fun kv => print_prop (fst kv) (JSON_stringify (snd kv))) props)
          +:+ "}"
  end.

(* ===================================================================== *)
(** * The two packages behind the canonical form *)
(* ===================================================================== *)

(** [Object.keys(obj).sort()]: the default order of [sort] on strings,
    character code by character code. *)
Definition sorted_keys {A : Type} (props : list (string * A)) : list string :=
  merge_sort String.le (keys props).

(** The properties of [props] read in the order of [ks]. *)
Definition pick {A : Type} (props : list (string * A)) (ks : list string)
  : list (string * A) :=
  omap (fun k => option_map (pair k) (get_prop props k)) ks.

(** sort-keys-recursive on an object literal: a new object that receives the
    properties in sorted key order, nested objects first sorted themselves. *)
Fixpoint sortKeysRecursive (r : record) : record :=
  match r with
  | Leaf x => Leaf x
  | Obj props =>
      let sorted := map (fun kv => (fst kv, sortKeysRecursive (snd kv))) props in
      Obj (pick sorted (sorted_keys props))
  end.

(** json-stringify-deterministic with its default options: as
    [JSON.stringify] without indentation, except that the keys of every
    object are visited in sorted order. *)
Fixpoint stringify (v : value) : string :=
  match v with
  | VArr items => "[" +:+ join "," (map stringify items) +:+ "]"
  | VObj props =>
      let out := map (fun kv => (fst kv, stringify (snd kv))) props in
      "{" +:+ join "," (map (fun kt => print_prop (fst kt) (snd kt))
                           (pick out (sorted_keys props)))
          +:+ "}"
  | _ => JSON_stringify v
  end.

(* ===================================================================== *)
(** * Reading compact JSON text back *)
(* ===================================================================== *)

(** [decode] reads the compact text that the encoders above write; the
    theorems use it to say which record a returned or stored text denotes. *)

Definition unhex (c : ascii) : option N :=
  let n := N_of_ascii c in
  if (48 <=? n)%N && (n <=? 57)%N then Some (n - 48)%N
  else if (97 <=? n)%N && (n <=? 102)%N then Some (n - 87)%N
  else if (65 <=? n)%N && (n <=? 70)%N then Some (n - 55)%N
  else None.

(** The character an escape letter stands for. *)
Definition unescape (e : ascii) : option ascii :=
  if Ascii.eqb e dquote then Some dquote
  else if Ascii.eqb e backslash then Some backslash
  else if Ascii.eqb e "/" then Some "/"%char
  else if Ascii.eqb e "b" then Some "008"%char
  else if Ascii.eqb e "f" then Some "012"%char
  else if Ascii.eqb e "n" then Some "010"%char
  else if Ascii.eqb e "r" then Some "013"%char
  else if Ascii.eqb e "t" then Some "009"%char
  else None.

(** A [\uXXXX] escape, for the codes below 128 that take one byte. *)
Definition unicode_escape (h1 h2 h3 h4 : ascii) : option ascii :=
  a ← unhex h1; b ← unhex h2; c ← unhex h3; d ← unhex h4;
  let code := (((a * 16 + b) * 16 + c) * 16 + d)%N in
  if (code <? 128)%N then Some (ascii_of_N code) else None.

(** The characters of a string literal after its opening quote, up to and
    without the closing quote, and the text that follows. *)
Fixpoint read_string (s : string) : option (string * string) :=
  match s with
  | "" => None
  | String c r =>
      if Ascii.eqb c dquote then Some ("", r)
      else if Ascii.eqb c backslash then
        match r with
        | String e r1 =>
            if Ascii.eqb e "u" then
              match r1 with
              | String h1 (String h2 (String h3 (String h4 r2))) =>
                  x ← unicode_escape h1 h2 h3 h4;
                  '(str, rest) ← read_string r2;
                  Some (String x str, rest)
              | _ => None
              end
            else
              x ← unescape e;
              '(str, rest) ← read_string r1;
              Some (String x str, rest)
        | "" => None
        end
      else if (N_of_ascii c <? 32)%N then None
      else '(str, rest) ← read_string r; Some (String c str, rest)
  end.

(** The longest run of decimal digits at the head of the text. *)
Fixpoint read_digits (s : string) : uint * string :=
  match s with
  | "" => (Nil, "")
  | String c r =>
      match uint_of_char c (Some Nil) with
      | None => (Nil, s)
      | Some _ =>
          let (d, rest) := read_digits r in
          match uint_of_char c (Some d) with
          | Some d' => (d', rest)
          | None => (Nil, s)
          end
      end
  end.

Definition read_number (s : string) : option (Z * string) :=
  match s with
  | String "-" r =>
      match read_digits r with
      | (Nil, _) => None
      | (d, rest) => Some (Z.of_int (Neg d), rest)
      end
  | _ =>
      match read_digits s with
      | (Nil, _) => None
      | (d, rest) => Some (Z.of_int (Pos d), rest)
      end
  end.

(** [expect word s]: the text after [word] when [s] starts with it. *)
Fixpoint expect (word s : string) : option string :=
  match word, s with
  | "", _ => Some s
  | String a word', String b s' => if Ascii.eqb a b then expect word' s' else None
  | _, _ => None
  end.

Fixpoint parse_value (fuel : nat) (s : string) : option (value * string) :=
  match fuel with
  | O => None
  | S fuel' =>
      match read_number s with
      | Some (n, rest) => Some (VNum n, rest)
      | None =>
          match s with
          | "" => None
          | String c r =>
              if Ascii.eqb c dquote then
                '(str, rest) ← read_string r; Some (VStr str, rest)
              else if Ascii.eqb c "[" then
                match r with
                | String "]" rest => Some (VArr [], rest)
                | _ => '(items, rest) ← parse_items fuel' r; Some (VArr items, rest)
                end
              else if Ascii.eqb c "{" then
                match r with
                | String "}" rest => Some (VObj [], rest)
                | _ => '(props, rest) ← parse_props fuel' r; Some (VObj props, rest)
                end
              else if Ascii.eqb c "n" then rest ← expect "ull" r; Some (VNull, rest)
              else if Ascii.eqb c "t" then rest ← expect "rue" r; Some (VBool true, rest)
              else if Ascii.eqb c "f" then rest ← expect "alse" r; Some (VBool false, rest)
              else None
          end
      end
  end
with parse_items (fuel : nat) (s : string) : option (list value * string) :=
  match fuel with
  | O => None
  | S fuel' =>
      '(v, r) ← parse_value fuel' s;
      match r with
      | String "," r1 => '(vs, rest) ← parse_items fuel' r1; Some (v :: vs, rest)
      | String "]" rest => Some ([v], rest)
      | _ => None
      end
  end
with parse_props (fuel : nat) (s : string) : option (list (string * value) * string) :=
  match fuel with
  | O => None
  | S fuel' =>
      match s with
      | String c r =>
          if Ascii.eqb c dquote then
            '(k, r1) ← read_string r;
            match r1 with
            | String ":" r2 =>
                '(v, r3) ← parse_value fuel' r2;
                match r3 with
                | String "," r4 =>
                    '(ps, rest) ← parse_props fuel' r4; Some ((k, v) :: ps, rest)
                | String "}" rest => Some ([(k, v)], rest)
                | _ => None
                end
            | _ => None
            end
          else None
      | "" => None
      end
  end.

Definition decode (text : string) : option value :=
  match parse_value (String.length text) text with
  | Some (v, "") => Some v
  | _ => None
  end.


(** The text does not go on with a digit. *)
Definition no_digit (s : string) : Prop := read_digits s = (Nil, s).

(** Fuel that [parse_value] needs for the text of a value. *)
Fixpoint size (v : value) : nat :=
  match v with
  | VArr items => S (list_sum (map (fun x => S (size x)) items))
  | VObj props => S (list_sum (map (fun kv => S (size (snd kv))) props))
  | _ => 1
  end.

(** The first character of the text of a value. *)
Definition head_ok (c : ascii) : Prop :=
  c <> "]"%char /\ c <> "}"%char.

(** What [parse_value] has to do on the text of [v], whatever follows. *)
Definition reads_back (v : value) : Prop :=
  forall fuel rest, (size v <= fuel)%nat -> no_digit rest ->
    parse_value fuel (JSON_stringify v +:+ rest) = Some (v, rest).

(** Induction on values and records that reaches into the property lists. *)
Section value_induction.
Variable P : value -> Prop.
Hypothesis HNull : P VNull.
Hypothesis HBool : forall b, P (VBool b).
Hypothesis HNum : forall n, P (VNum n).
Hypothesis HStr : forall s, P (VStr s).
Hypothesis HArr : forall items, Forall P items -> P (VArr items).
Hypothesis HObj : forall props, Forall (fun kv => P (snd kv)) props -> P (VObj props).

Fixpoint value_nested_ind (v : value) : P v :=
  match v with
  | VNull => HNull
  | VBool b => HBool b
  | VNum n => HNum n
  | VStr s => HStr s
  | VArr items =>
      HArr items
        ((fix all (l : list value) : Forall P l :=
            match l with
            | [] => List.Forall_nil P
            | x :: l' => List.Forall_cons P x l' (value_nested_ind x) (all l')
            end) items)
  | VObj props =>
      HObj props
        ((fix all (l : list (string * value)) : Forall (fun kv => P (snd kv)) l :=
            match l with
            | [] => List.Forall_nil _
            | kv :: l' => List.Forall_cons _ kv l' (value_nested_ind (snd kv)) (all l')
            end) props)
  end.
End value_induction.

Section record_induction.
Variable P : record -> Prop.
Hypothesis HLeaf : forall x, P (Leaf x).
Hypothesis HObj : forall props, Forall (fun kv => P (snd kv)) props -> P (Obj props).

Fixpoint record_nested_ind (r : record) : P r :=
  match r with
  | Leaf x => HLeaf x
  | Obj props =>
      HObj props
        ((fix all (l : list (string * record)) : Forall (fun kv => P (snd kv)) l :=
            match l with
            | [] => List.Forall_nil _
            | kv :: l' => List.Forall_cons _ kv l' (record_nested_ind (snd kv)) (all l')
            end) props)
  end.
End record_induction.

(* ===================================================================== *)
(** * Canonical form *)
(* ===================================================================== *)

(** Keys in sorted order, none twice. *)
Definition ascending (ks : list string) : Prop := Sorted String.le ks /\ NoDup ks.

#[global] Instance ascending_dec (ks : list string) : Decision (ascending ks).
Proof. unfold ascending. apply _. Defined.

(** Every object of the value, at any depth, lists its keys in sorted order. *)
Fixpoint keys_sorted (v : value) : bool :=
  match v with
  | VObj props =>
      bool_decide (ascending (keys props)) && forallb (fun kv => keys_sorted (snd kv)) props
  | VArr items => forallb keys_sorted items
  | _ => true
  end.

(** No object of the record has two properties of the same name, as is the
    case of every JavaScript object. *)
Fixpoint keys_unique (r : record) : bool :=
  match r with
  | Leaf _ => true
  | Obj props =>
      bool_decide (NoDup (keys props)) && forallb (fun kv => keys_unique (snd kv)) props
  end.

(** A text in canonical form: the compact text of a value whose keys are
    sorted at every depth. *)
Definition canonical (text : string) : Prop :=
  exists v, keys_sorted v = true /\ text = JSON_stringify v.


(** [v.a.b...]: the member of [v] at the end of a path of keys. *)
Fixpoint member (v : value) (path : list string) : option value :=
  match path with
  | [] => Some v
  | k :: path' =>
      match field v k with
      | Some w => member w path'
      | None => None
      end
  end.

(* ===================================================================== *)
(** * The ledger stub *)
(* ===================================================================== *)

(** The world state behind [ctx.stub]: the value stored under each key.  A
    peer answers [getState] for a key without a value with an empty buffer;
    the stubs of unit tests answer it with [undefined].  [null_when_absent]
    says which of the two this stub does.  The stub takes every key and every
    value in [putState], and a scan sees the keys in the order of their
    character codes. *)
Record stub : Type := Stub {
  state : gmap string string;
  null_when_absent : bool
}.

(** How a transaction ends. *)
Inductive outcome (A : Type) : Type :=
| Returned (a : A)
| Thrown (message : string).
Arguments Returned {A} a.
Arguments Thrown {A} message.

(** A transaction body: it runs on the stub, ends with a value or an
    exception, and leaves the stub behind. *)
Definition tx (A : Type) : Type := stub -> outcome A * stub.

Definition ret {A : Type} (a : A) : tx A := fun st => (Returned a, st).

Definition throw {A : Type} (message : string) : tx A := fun st => (Thrown message, st).

Definition bind {A B : Type} (m : tx A) (k : A -> tx B) : tx B :=
  fun st =>
    match m st with
    | (Returned a, st') => k a st'
    | (Thrown message, st') => (Thrown message, st')
    end.

Declare Scope tx_scope.
Delimit Scope tx_scope with tx.
Notation "'await' x <- m ;; k" := (bind m (fun x => k))
  (at level 10, x name, m at level 99, k at level 200) : tx_scope.
Local Open Scope tx_scope.

(** [Buffer.from(text)] and [buffer.toString()]: the bytes of a text, and
    the text of these bytes. *)
Definition Buffer_from (text : string) : string := text.
Definition toString (buffer : string) : string := buffer.

(** [null] or [undefined] is [None]. *)
Definition getState (key : string) : tx (option string) :=
  fun st =>
    match state st !! key with
    | Some buffer => (Returned (Some buffer), st)
    | None => (Returned (if null_when_absent st then None else Some ""), st)
    end.

Definition putState (key : string) (val : string) : tx unit :=
  fun st => (Returned tt, Stub (<[key := val]> (state st)) (null_when_absent st)).

Definition deleteState (key : string) : tx unit :=
  fun st => (Returned tt, Stub (delete key (state st)) (null_when_absent st)).

(** A key of the range from [startKey], included, to [endKey], excluded; an
    empty bound is no bound. *)
Definition in_range (startKey endKey key : string) : bool :=
  (String.eqb startKey "" || String.leb startKey key)
  && (String.eqb endKey "" || String.ltb key endKey).

Definition key_le (a b : string * string) : Prop := String.le (fst a) (fst b).

#[global] Instance key_le_dec : RelDecision key_le.
Proof. intros a b. unfold key_le. apply _. Defined.

(** The entries of the range in key order: what the iterator will hand
    out, one [next()] at a time. *)
Definition getStateByRange (startKey endKey : string) : tx (list (string * string)) :=
  fun st =>
    (Returned
       (merge_sort key_le
          (filter (fun kv => in_range startKey endKey (fst kv) = true)
                  (map_to_list (state st)))),
     st).

(* ===================================================================== *)
(** * class AssetTransfer *)
(* ===================================================================== *)

(** The value of [assetJSON && assetJSON.length > 0]: the left operand itself
    when it is [null] or [undefined], and the comparison otherwise (a buffer
    is an object, and so is truthy also when it is empty). *)
Inductive existence : Type :=
| Nullish
| Bool (b : bool).

(** The branch that [if (exists)] takes. *)
Definition truthy (e : existence) : bool :=
  match e with
  | Nullish => false
  | Bool b => b
  end.

Definition already_exists (rid : string) : string :=
  "The asset " +:+ rid +:+ " already exists".

Definition does_not_exist (rid : string) : string :=
  "The asset " +:+ rid +:+ " does not exist".

(** [for (const x of xs) { await body(x) }] *)
Fixpoint for_of {A : Type} (xs : list A) (body : A -> tx unit) : tx unit :=
  match xs with
  | [] => ret tt
  | x :: xs' => await _ <- body x ;; for_of xs' body
  end.

Definition assets : list (list (string * record)) :=
  [ [ ("RID", Leaf (Str "101"));
      ("SID", Leaf (Str "1"));
      ("Readings", Obj [("BPM", Leaf (Num 100)); ("HRV", Leaf (Num 10))]);
      ("Time", Leaf (Str "2023-11-04T15:30:00.000Z"));
      ("Team", Leaf (Str "team3")) ] ].

(** The body of the loop sets [docType], reads the key from [asset.RID] and
    puts the record; [asset.RID] is the string of the literal, and the last
    branch is only there because [get_prop] is partial. *)
Definition InitLedger : tx unit :=
  for_of assets (fun asset =>
    let asset := set_prop asset "docType" (Leaf (Str "asset")) in
    match get_prop asset "RID" with
    | Some (Leaf (Str rid)) =>
        putState rid (Buffer_from (stringify (to_value (sortKeysRecursive (Obj asset)))))
    | _ => throw "putState: the key is not a string"
    end).

Definition AssetExists (rid : string) : tx existence :=
  await assetJSON <- getState rid ;;
  ret (match assetJSON with
       | None => Nullish
       | Some buffer => Bool (0 <? String.length buffer)%nat
       end).

Definition CreateAsset (rid : string) (sid bpm hrv time team : scalar) : tx string :=
  await exists_ <- AssetExists rid ;;
  if truthy exists_ then throw (already_exists rid)
  else
    let asset :=
      Obj [ ("RID", Leaf (Str rid));
            ("SID", Leaf sid);
            ("Readings", Obj [("BPM", Leaf bpm); ("HRV", Leaf hrv)]);
            ("Time", Leaf time);
            ("Team", Leaf team) ] in
    await _ <- putState rid (Buffer_from (stringify (to_value (sortKeysRecursive asset)))) ;;
    ret (JSON_stringify (to_value asset)).

Definition ReadAsset (rid : string) : tx string :=
  await assetJSON <- getState rid ;;
  match assetJSON with
  | None => throw (does_not_exist rid)
  | Some buffer =>
      if (String.length buffer =? 0)%nat then throw (does_not_exist rid)
      else ret (toString buffer)
  end.

Definition UpdateAsset (rid : string) (sid bpm hrv time team : scalar) : tx unit :=
  await exists_ <- AssetExists rid ;;
  if negb (truthy exists_) then throw (does_not_exist rid)
  else
    let updatedAsset :=
      Obj [ ("RID", Leaf (Str rid));
            ("SID", Leaf sid);
            ("Readings", Obj [("BPM", Leaf bpm); ("HRV", Leaf hrv)]);
            ("TIme", Leaf time);
            ("Team", Leaf team) ] in
    putState rid (Buffer_from (stringify (to_value (sortKeysRecursive updatedAsset)))).

Definition DeleteAsset (rid : string) : tx unit :=
  await exists_ <- AssetExists rid ;;
  if negb (truthy exists_) then throw (does_not_exist rid)
  else deleteState rid.

Section listing.
(** [JSON.parse] of the engine; [None] when it throws. *)
Variable JSON_parse : string -> option value.

(** The body of the [while] loop, once per entry that the iterator still
    holds; the result is [allResults] at the end of the loop together with
    what is left in the iterator. *)
Fixpoint drain (iterator : list (string * string)) (allResults : list value)
  : list value * list (string * string) :=
  match iterator with
  | [] => (allResults, [])
  | result :: iterator' =>
      let strValue := toString (Buffer_from (toString (snd result))) in
      let record :=
        match JSON_parse strValue with
        | Some parsed => parsed
        | None => VStr strValue
        end in
      drain iterator' (allResults ++ [record])%list
  end.

Definition GetAllAssets : tx string :=
  await iterator <- getStateByRange "" "" ;;
  ret (JSON_stringify (VArr (fst (drain iterator [])))).

(** A transaction proposal, and the world state after it. *)
Inductive call : Type :=
| CallInitLedger
| CallCreateAsset (rid : string) (sid bpm hrv time team : scalar)
| CallReadAsset (rid : string)
| CallUpdateAsset (rid : string) (sid bpm hrv time team : scalar)
| CallDeleteAsset (rid : string)
| CallAssetExists (rid : string)
| CallGetAllAssets.

Definition invoke (c : call) (st : stub) : stub :=
  match c with
  | CallInitLedger => snd (InitLedger st)
  | CallCreateAsset rid sid bpm hrv time team => snd (CreateAsset rid sid bpm hrv time team st)
  | CallReadAsset rid => snd (ReadAsset rid st)
  | CallUpdateAsset rid sid bpm hrv time team => snd (UpdateAsset rid sid bpm hrv time team st)
  | CallDeleteAsset rid => snd (DeleteAsset rid st)
  | CallAssetExists rid => snd (AssetExists rid st)
  | CallGetAllAssets => snd (GetAllAssets st)
  end.
End listing.

(** An asset exists: a value is stored under its key, and it is not empty. *)
Definition stored (st : stub) (rid : string) : Prop :=
  exists buffer, state st !! rid = Some buffer /\ buffer <> "".

(** No asset exists: no value is stored under the key, or an empty one. *)
Definition vacant (st : stub) (rid : string) : Prop :=
  state st !! rid = None \/ state st !! rid = Some "".

(* ===================================================================== *)
(** * Names for what the transactions build and leave behind *)
(* ===================================================================== *)

(** The record that [CreateAsset] builds. *)
Definition created_asset (rid : string) (sid bpm hrv time team : scalar) : record :=
  Obj [ ("RID", Leaf (Str rid));
        ("SID", Leaf sid);
        ("Readings", Obj [("BPM", Leaf bpm); ("HRV", Leaf hrv)]);
        ("Time", Leaf time);
        ("Team", Leaf team) ].

(** The record that [UpdateAsset] builds. *)
Definition updated_asset (rid : string) (sid bpm hrv time team : scalar) : record :=
  Obj [ ("RID", Leaf (Str rid));
        ("SID", Leaf sid);
        ("Readings", Obj [("BPM", Leaf bpm); ("HRV", Leaf hrv)]);
        ("TIme", Leaf time);
        ("Team", Leaf team) ].

(** The record that [InitLedger] builds. *)
Definition seeded_asset : record :=
  Obj [ ("RID", Leaf (Str "101"));
        ("SID", Leaf (Str "1"));
        ("Readings", Obj [("BPM", Leaf (Num 100)); ("HRV", Leaf (Num 10))]);
        ("Time", Leaf (Str "2023-11-04T15:30:00.000Z"));
        ("Team", Leaf (Str "team3"));
        ("docType", Leaf (Str "asset")) ].

(** The bytes that the three writers hand to [putState]. *)
Definition stored_form (r : record) : string :=
  Buffer_from (stringify (to_value (sortKeysRecursive r))).

(** The stub after [putState(key, val)]. *)
Definition put (st : stub) (key val : string) : stub :=
  Stub (<[key := val]> (state st)) (null_when_absent st).

(** The stub after [deleteState(key)]. *)
Definition del (st : stub) (key : string) : stub :=
  Stub (delete key (state st)) (null_when_absent st).


(** What the loop of [GetAllAssets] pushes for a stored text. *)
Definition listed (JSON_parse : string -> option value) (text : string) : value :=
  match JSON_parse text with
  | Some parsed => parsed
  | None => VStr text
  end.


(** ** Whitespace *)




(** ** Sample stubs and records *)

Definition empty_peer : stub := Stub ∅ false.
Definition empty_double : stub := Stub ∅ true.
Definition with_200 : stub :=
  put empty_peer "200"
    (stored_form (created_asset "200" (Str "5") (Num 88) (Num 12)
                    (Str "2024-01-01T00:00:00.000Z") (Str "team3"))).
Definition with_empty_200 : stub := put empty_peer "200" "".


(* ===================================================================== *)
(** * Sequences of transactions *)
(* ===================================================================== *)

(** The world state after a list of proposals, one after the other. *)
Definition run_calls (JSON_parse : string -> option value) (calls : list call)
    (st : stub) : stub :=
  fold_left (fun st' c => invoke JSON_parse c st') calls st.

(** The key that a proposal may write: [InitLedger] puts under the key of its
    literal, the three writers under their [rid], the readers nowhere. *)
Definition written_key (c : call) : option string :=
  match c with
  | CallInitLedger => Some "101"
  | CallCreateAsset rid _ _ _ _ _ => Some rid
  | CallUpdateAsset rid _ _ _ _ _ => Some rid
  | CallDeleteAsset rid => Some rid
  | CallReadAsset _ | CallAssetExists _ | CallGetAllAssets => None
  end.

(** A value that has what every record written by the contract has: the key
    under [RID], the members [SID], [Readings.BPM], [Readings.HRV] and [Team],
    and the timestamp under one of the two names [Time] and [TIme]. *)
Definition asset_shaped (key : string) (v : value) : Prop :=
  member v ["RID"] = Some (VStr key)
  /\ is_Some (member v ["SID"])
  /\ is_Some (member v ["Readings"; "BPM"])
  /\ is_Some (member v ["Readings"; "HRV"])
  /\ is_Some (member v ["Team"])
  /\ (is_Some (member v ["Time"]) <-> member v ["TIme"] = None).

(** Every stored value is the canonical text of an asset stored under its own
    [RID]. *)
Definition well_kept (st : stub) : Prop :=
  forall key buffer, state st !! key = Some buffer ->
    canonical buffer /\ exists v, decode buffer = Some v /\ asset_shaped key v.

(** The entries that the iterator of [GetAllAssets] hands out. *)
Definition scan (st : stub) : list (string * string) :=
  merge_sort key_le (map_to_list (state st)).

(** A stub that holds the seed record and the asset 200. *)
Definition with_101_and_200 : stub := put with_200 "101" (stored_form seeded_asset).
(* ===================================================================== *)
(** * Facts about text *)
(* ===================================================================== *)

Lemma app_String (c : ascii) (a b : string) : String c a +:+ b = String c (a +:+ b).
Proof. reflexivity. Qed.

Lemma app_empty_l (a : string) : "" +:+ a = a.
Proof. reflexivity. Qed.

Lemma app_empty_r (a : string) : a +:+ "" = a.
Proof. induction a as [|c a IH]; [reflexivity|]. now rewrite app_String, IH. Qed.

Lemma app_assoc_text (a b c : string) : (a +:+ b) +:+ c = a +:+ (b +:+ c).
Proof. induction a as [|x a IH]; [reflexivity|]. now rewrite !app_String, IH. Qed.

Lemma length_app_text (a b : string) :
  String.length (a +:+ b) = (String.length a + String.length b)%nat.
Proof. induction a as [|x a IH]; [reflexivity|]. rewrite app_String. simpl. now rewrite IH. Qed.

(** ** Strings *)

Lemma read_string_escape_char (c : ascii) (s : string) :
  read_string (escape_char c +:+ s) =
  '(str, rest) ← read_string s; Some (String c str, rest).
Proof. destruct c as [[] [] [] [] [] [] [] []]; reflexivity. Qed.

Lemma read_string_escape (s rest : string) :
  read_string (escape s +:+ String dquote rest) = Some (s, rest).
Proof.
  induction s as [|c s IH]; [reflexivity|].
  cbn [escape]. rewrite app_assoc_text, read_string_escape_char, IH. reflexivity.
Qed.

(** ** Numbers *)

Lemma read_digits_uint (d : uint) (rest : string) :
  no_digit rest -> read_digits (NilEmpty.string_of_uint d +:+ rest) = (d, rest).
Proof.
  intros Hrest.
  induction d as [|d IH|d IH|d IH|d IH|d IH|d IH|d IH|d IH|d IH|d IH];
    cbn [NilEmpty.string_of_uint]; rewrite ?app_String; [exact Hrest|..];
    cbn [read_digits]; rewrite IH; reflexivity.
Qed.

Lemma read_number_print (n : Z) (rest : string) :
  no_digit rest -> read_number (print_Z n +:+ rest) = Some (n, rest).
Proof.
  intros Hrest. unfold print_Z.
  rewrite <- (DecimalZ.of_to n) at 2.
  destruct n as [|p|p]; cbn [Z.to_int NilEmpty.string_of_int].
  - change (NilEmpty.string_of_uint zero) with "0". rewrite app_String, app_empty_l.
    unfold read_number. cbn [read_digits]. rewrite Hrest. reflexivity.
  - pose proof (Unsigned.to_uint_nonnil p) as Hnil.
    destruct (Pos.to_uint p) as [|d|d|d|d|d|d|d|d|d|d] eqn:E; [congruence|..];
      unfold read_number;
      rewrite read_digits_uint by exact Hrest;
      cbn [NilEmpty.string_of_uint]; rewrite app_String; reflexivity.
  - pose proof (Unsigned.to_uint_nonnil p) as Hnil.
    rewrite app_String. unfold read_number.
    rewrite read_digits_uint by exact Hrest.
    destruct (Pos.to_uint p); [congruence|reflexivity..].
Qed.

(** ** Values *)

Lemma no_digit_comma (s : string) : no_digit (String "," s).
Proof. reflexivity. Qed.

Lemma no_digit_bracket (s : string) : no_digit (String "]" s).
Proof. reflexivity. Qed.

Lemma no_digit_brace (s : string) : no_digit (String "}" s).
Proof. reflexivity. Qed.

Lemma no_digit_empty : no_digit "".
Proof. reflexivity. Qed.

Lemma quote_app (s rest : string) :
  quote s +:+ rest = String dquote (escape s +:+ String dquote rest).
Proof. unfold quote. now rewrite app_String, app_assoc_text, app_String. Qed.

Lemma print_Z_head (n : Z) :
  exists c r, print_Z n = String c r /\ head_ok c.
Proof.
  unfold print_Z.
  destruct n as [|p|p]; cbn [Z.to_int NilEmpty.string_of_int].
  - eexists _, _. split; [reflexivity|]. split; discriminate.
  - pose proof (Unsigned.to_uint_nonnil p) as Hnil.
    destruct (Pos.to_uint p); [congruence|..];
      (eexists _, _; split; [reflexivity|]; split; discriminate).
  - eexists _, _. split; [reflexivity|]. split; discriminate.
Qed.

Lemma JSON_stringify_head (v : value) :
  exists c r, JSON_stringify v = String c r /\ head_ok c.
Proof.
  destruct v as [|[]|n|s|items|props]; try apply print_Z_head;
    (eexists _, _; split; [reflexivity|]; split; discriminate).
Qed.

(** Brings a concatenation into the form [a +:+ String c (b +:+ ...)]. *)
Ltac norm_text :=
  repeat (progress rewrite ?app_assoc_text, ?app_String, ?app_empty_l).

Lemma join_one (sep a : string) : join sep [a] = a.
Proof. reflexivity. Qed.

Lemma join_more (sep a b : string) (l : list string) :
  join sep (a :: b :: l) = a +:+ sep +:+ join sep (b :: l).
Proof. reflexivity. Qed.

Lemma parse_items_stringify (items : list value) :
  Forall reads_back items -> items <> [] ->
  forall fuel rest, (list_sum (map (fun x => S (size x)) items) <= fuel)%nat ->
    parse_items fuel (join "," (map JSON_stringify items) +:+ String "]" rest)
    = Some (items, rest).
Proof.
  induction 1 as [|x l Hx Hl IH]; [congruence|intros _ fuel rest Hfuel].
  simpl in Hfuel.
  destruct fuel as [|f]; [lia|].
  destruct l as [|y l'].
  - cbn [map]. rewrite join_one. cbn [parse_items].
    rewrite Hx by (apply no_digit_bracket || (simpl in Hfuel; lia)).
    reflexivity.
  - cbn [map]. rewrite join_more, !app_assoc_text, app_String, app_empty_l.
    cbn [parse_items].
    rewrite Hx by (apply no_digit_comma || lia).
    cbn [mbind option_bind]. 
    rewrite (IH ltac:(discriminate)) by lia.
    reflexivity.
Qed.

Lemma parse_props_stringify (props : list (string * value)) :
  Forall (fun kv => reads_back (snd kv)) props -> props <> [] ->
  forall fuel rest, (list_sum (map (fun kv => S (size (snd kv))) props) <= fuel)%nat ->
    parse_props fuel
      (join "," (map (fun kv => print_prop (fst kv) (JSON_stringify (snd kv))) props)
         +:+ String "}" rest)
    = Some (props, rest).
Proof.
  induction 1 as [|[k x] l Hx Hl IH]; [congruence|intros _ fuel rest Hfuel].
  simpl in Hfuel, Hx.
  destruct fuel as [|f]; [lia|].
  destruct l as [|y l'].
  - cbn [map fst snd]. rewrite join_one. unfold print_prop.
    rewrite !app_assoc_text, quote_app. cbn [parse_props].
    change (Ascii.eqb dquote dquote) with true. cbv iota.
    rewrite read_string_escape. cbn [mbind option_bind].
    rewrite app_String, app_empty_l.
    rewrite Hx by (apply no_digit_brace || (simpl in Hfuel; lia)).
    reflexivity.
  - cbn [map fst snd]. rewrite join_more. unfold print_prop at 1.
    rewrite !app_assoc_text, quote_app. cbn [parse_props].
    change (Ascii.eqb dquote dquote) with true. cbv iota.
    rewrite read_string_escape. cbn [mbind option_bind].
    rewrite !app_String, !app_empty_l.
    rewrite Hx by (apply no_digit_comma || lia).
    cbn [mbind option_bind].
    rewrite (IH ltac:(discriminate)) by lia.
    reflexivity.
Qed.

Lemma parse_value_stringify (v : value) : reads_back v.
Proof.
  induction v as [|b|n|s|items IH|props IH] using value_nested_ind;
    intros fuel rest Hfuel Hrest; (destruct fuel as [|f]; [simpl in Hfuel; lia|]).
  - reflexivity.
  - destruct b; reflexivity.
  - cbn [parse_value JSON_stringify]. now rewrite read_number_print.
  - cbn [JSON_stringify]. rewrite quote_app. cbn [parse_value].
    change (read_number (String dquote ?x)) with (@None (Z * string)).
    cbv iota. change (Ascii.eqb dquote dquote) with true. cbv iota.
    now rewrite read_string_escape.
  - cbn [JSON_stringify]; simpl in Hfuel.
    destruct items as [|x l]; [reflexivity|].
    norm_text.
    destruct (JSON_stringify_head x) as (c & r & Hc & Hne1 & Hne2).
    cbn [parse_value].
    change (read_number (String "[" ?x)) with (@None (Z * string)).
    cbv iota. change (Ascii.eqb "[" dquote) with false.
    change (Ascii.eqb "[" "[") with true. cbv iota.
    rewrite parse_items_stringify by (assumption || discriminate || lia).
    cbn [mbind option_bind].
    destruct l as [|y l'].
    + cbn [map]. rewrite join_one, Hc, app_String.
      destruct c as [[] [] [] [] [] [] [] []]; try reflexivity; exfalso; auto.
    + cbn [map]. rewrite join_more, Hc, !app_String.
      destruct c as [[] [] [] [] [] [] [] []]; try reflexivity; exfalso; auto.
  - cbn [JSON_stringify]; simpl in Hfuel.
    destruct props as [|[k x] l]; [reflexivity|].
    norm_text.
    cbn [parse_value].
    change (read_number (String "{" ?x)) with (@None (Z * string)).
    cbv iota. change (Ascii.eqb "{" dquote) with false.
    change (Ascii.eqb "{" "[") with false. change (Ascii.eqb "{" "{") with true.
    cbv iota.
    rewrite parse_props_stringify by (assumption || discriminate || lia).
    cbn [mbind option_bind].
    destruct l as [|y l']; cbn [map fst snd]; rewrite ?join_one, ?join_more;
      unfold print_prop; rewrite !app_assoc_text, quote_app; reflexivity.
Qed.

Lemma length_join_ge (l : list string) :
  (list_sum (map (fun t => S (String.length t)) l) <= S (String.length (join "," l)))%nat.
Proof.
  induction l as [|a l IH]; [simpl; lia|].
  destruct l as [|b l].
  - rewrite join_one. simpl. lia.
  - rewrite join_more, !length_app_text. simpl in *. lia.
Qed.

Lemma list_sum_le {A : Type} (f g : A -> nat) (l : list A) :
  Forall (fun x => (f x <= g x)%nat) l ->
  (list_sum (map f l) <= list_sum (map g l))%nat.
Proof. induction 1; simpl; lia. Qed.

Lemma size_le_length (v : value) : (size v <= String.length (JSON_stringify v))%nat.
Proof.
  induction v as [|b|n|s|items IH|props IH] using value_nested_ind.
  - simpl. lia.
  - destruct b; simpl; lia.
  - destruct (print_Z_head n) as (c & r & E & _). simpl. rewrite E. simpl. lia.
  - simpl. lia.
  - cbn [JSON_stringify size]. rewrite !length_app_text.
    pose proof (length_join_ge (map JSON_stringify items)) as Hj.
    rewrite map_map in Hj.
    assert (list_sum (map (fun x => S (size x)) items)
            <= list_sum (map (fun x => S (String.length (JSON_stringify x))) items))%nat.
    { apply list_sum_le. eapply Forall_impl; [exact IH|]. simpl. intros; lia. }
    simpl. lia.
  - cbn [JSON_stringify size]. rewrite !length_app_text.
    pose proof (length_join_ge
      (map (fun kv => print_prop (fst kv) (JSON_stringify (snd kv))) props)) as Hj.
    rewrite map_map in Hj.
    assert (list_sum (map (fun kv => S (size (snd kv))) props)
            <= list_sum (map (fun kv => S (String.length
                 (print_prop (fst kv) (JSON_stringify (snd kv))))) props))%nat.
    { apply list_sum_le. eapply Forall_impl; [exact IH|]. simpl. intros kv Hkv.
      unfold print_prop. rewrite !length_app_text. lia. }
    simpl. lia.
Qed.

(** [decode] inverts [JSON.stringify]. *)
Lemma decode_stringify (v : value) : decode (JSON_stringify v) = Some v.
Proof.
  unfold decode.
  pose proof (parse_value_stringify v (String.length (JSON_stringify v)) ""
                (size_le_length v) no_digit_empty) as H.
  rewrite app_empty_r in H. now rewrite H.
Qed.


(* ===================================================================== *)
(** * Facts about property lists and sorted keys *)
(* ===================================================================== *)

Lemma elem_of_map {A B : Type} (f : A -> B) (l : list A) (y : B) :
  y ∈ map f l <-> exists x, y = f x /\ x ∈ l.
Proof.
  rewrite list_elem_of_In, in_map_iff. split.
  - intros (x & E & Hx). exists x. now rewrite list_elem_of_In.
  - intros (x & E & Hx). exists x. now rewrite <- list_elem_of_In.
Qed.


Lemma keys_map {A B : Type} (f : A -> B) (props : list (string * A)) :
  keys (map (fun kv => (fst kv, f (snd kv))) props) = keys props.
Proof. unfold keys. rewrite map_map. reflexivity. Qed.

Lemma get_prop_is_Some {A : Type} (props : list (string * A)) (k : string) :
  k ∈ keys props <-> is_Some (get_prop props k).
Proof.
  induction props as [|[k' v] props IH]; cbn [keys map get_prop fst].
  - split; [intros H; inversion H|intros [? H]; discriminate].
  - destruct (String.eqb_spec k' k) as [->|Hne].
    + split; [eauto|intros _; left].
    + rewrite <- IH. unfold keys. rewrite elem_of_cons.
      split; [intros [E|E]; [congruence|exact E]|intros E; now right].
Qed.

Lemma get_prop_elem {A : Type} (props : list (string * A)) (k : string) (v : A) :
  get_prop props k = Some v -> (k, v) ∈ props.
Proof.
  induction props as [|[k' w] props IH]; cbn [get_prop]; [discriminate|].
  destruct (String.eqb_spec k' k) as [->|Hne].
  - intros [= ->]. left.
  - intros H. right. auto.
Qed.

Lemma pick_ext {A : Type} (p1 p2 : list (string * A)) (ks : list string) :
  (forall k, k ∈ ks -> get_prop p1 k = get_prop p2 k) -> pick p1 ks = pick p2 ks.
Proof.
  induction ks as [|k ks IH]; intros H; [reflexivity|].
  unfold pick in *. cbn [omap list_omap].
  rewrite (H k) by left. rewrite IH by (intros; apply H; now right). reflexivity.
Qed.

Lemma keys_pick {A : Type} (props : list (string * A)) (ks : list string) :
  (forall k, k ∈ ks -> k ∈ keys props) -> keys (pick props ks) = ks.
Proof.
  induction ks as [|k ks IH]; intros H; [reflexivity|].
  unfold pick in *. cbn [omap list_omap].
  destruct (proj1 (get_prop_is_Some props k) (H k ltac:(left))) as [v ->].
  cbn [option_map keys map fst]. f_equal. apply IH. intros; apply H; now right.
Qed.

Lemma pick_elem {A : Type} (props : list (string * A)) (ks : list string) (kv : string * A) :
  kv ∈ pick props ks -> kv ∈ props.
Proof.
  unfold pick. rewrite list_elem_of_omap. intros (k & _ & Hk).
  destruct (get_prop props k) as [v|] eqn:E; [|discriminate].
  injection Hk as <-. now apply get_prop_elem.
Qed.

Lemma pick_cons_head {A : Type} (props : list (string * A)) (k : string) (v : A)
    (ks : list string) :
  pick ((k, v) :: props) (k :: ks) = (k, v) :: pick ((k, v) :: props) ks.
Proof. unfold pick. cbn [omap list_omap get_prop]. now rewrite String.eqb_refl. Qed.

Lemma pick_keys {A : Type} (props : list (string * A)) :
  NoDup (keys props) -> pick props (keys props) = props.
Proof.
  induction props as [|[k v] props IH]; [reflexivity|].
  change (keys ((k, v) :: props)) with (k :: keys props).
  intros Hnd. apply NoDup_cons in Hnd as [Hk Hnd].
  rewrite pick_cons_head. f_equal.
  transitivity (pick props (keys props)); [|exact (IH Hnd)].
  apply pick_ext. intros k' Hk'.
  cbn [get_prop]. destruct (String.eqb_spec k k') as [->|]; [contradiction|reflexivity].
Qed.

Lemma sorted_keys_Sorted {A : Type} (props : list (string * A)) :
  Sorted String.le (sorted_keys props).
Proof. apply Sorted_merge_sort; apply _. Qed.

Lemma sorted_keys_Permutation {A : Type} (props : list (string * A)) :
  sorted_keys props ≡ₚ keys props.
Proof. apply merge_sort_Permutation. Qed.

Lemma sorted_keys_ascending {A : Type} (props : list (string * A)) :
  NoDup (keys props) -> ascending (sorted_keys props).
Proof.
  intros Hnd. split; [apply sorted_keys_Sorted|].
  now rewrite sorted_keys_Permutation.
Qed.

Lemma sorted_keys_id {A : Type} (props : list (string * A)) :
  ascending (keys props) -> sorted_keys props = keys props.
Proof.
  intros [Hs _]. apply (Sorted_unique String.le); [apply sorted_keys_Sorted|exact Hs|].
  apply sorted_keys_Permutation.
Qed.


Lemma forallb_Forall {A : Type} (f : A -> bool) (l : list A) :
  forallb f l = true <-> Forall (fun x => f x = true) l.
Proof.
  induction l as [|x l IH]; cbn [forallb].
  - split; [constructor|reflexivity].
  - rewrite andb_true_iff, IH, Forall_cons. reflexivity.
Qed.

(** On a value whose keys are sorted, the deterministic encoder writes what
    [JSON.stringify] writes. *)
Lemma stringify_sorted (v : value) :
  keys_sorted v = true -> stringify v = JSON_stringify v.
Proof.
  induction v as [|b|n|s|items IH|props IH] using value_nested_ind;
    try reflexivity; cbn [keys_sorted stringify JSON_stringify]; intros Hs.
  - do 3 f_equal. apply forallb_Forall in Hs.
    induction IH as [|x l Hx Hl IHl]; [reflexivity|].
    apply Forall_cons in Hs as [Hs1 Hs2]. cbn [map]. f_equal; auto.
  - apply andb_true_iff in Hs as [Hk Hs]. apply bool_decide_eq_true in Hk.
    apply forallb_Forall in Hs.
    rewrite (sorted_keys_id _ Hk).
    rewrite <- (keys_map stringify props), pick_keys
      by (rewrite keys_map; apply Hk).
    rewrite map_map. cbn [fst snd]. do 3 f_equal. clear Hk.
    induction IH as [|x l Hx Hl IHl]; [reflexivity|].
    apply Forall_cons in Hs as [Hs1 Hs2]. cbn [map]. f_equal; [now rewrite Hx|auto].
Qed.

Lemma keys_sorted_scalar (x : scalar) : keys_sorted (scalar_value x) = true.
Proof. destruct x; reflexivity. Qed.

(** sort-keys-recursive leaves the keys of every object sorted. *)
Lemma sortKeysRecursive_sorted (r : record) :
  keys_unique r = true -> keys_sorted (to_value (sortKeysRecursive r)) = true.
Proof.
  induction r as [x|props IH] using record_nested_ind; [intros _; apply keys_sorted_scalar|].
  cbn [keys_unique sortKeysRecursive to_value keys_sorted]. intros Hu.
  apply andb_true_iff in Hu as [Hnd Hu]. apply bool_decide_eq_true in Hnd.
  apply forallb_Forall in Hu.
  apply andb_true_iff. split.
  - apply bool_decide_eq_true. rewrite keys_map, keys_pick.
    + now apply sorted_keys_ascending.
    + intros k Hk. rewrite keys_map. now rewrite sorted_keys_Permutation in Hk.
  - apply forallb_Forall, Forall_forall. intros kv Hkv.
    apply elem_of_map in Hkv as (kw & -> & Hkw). cbn [snd].
    apply pick_elem, elem_of_map in Hkw as ([k w] & -> & Hin). cbn [fst snd].
    rewrite Forall_forall in IH, Hu.
    apply (IH _ Hin), (Hu _ Hin).
Qed.

(** What the contract stores is what [JSON.stringify] writes for the sorted
    record. *)
Lemma stringify_sortKeysRecursive (r : record) :
  keys_unique r = true ->
  stringify (to_value (sortKeysRecursive r)) = JSON_stringify (to_value (sortKeysRecursive r)).
Proof. intros H. now apply stringify_sorted, sortKeysRecursive_sorted. Qed.

Lemma canonical_sortKeysRecursive (r : record) :
  keys_unique r = true -> canonical (stringify (to_value (sortKeysRecursive r))).
Proof.
  intros H. exists (to_value (sortKeysRecursive r)).
  split; [now apply sortKeysRecursive_sorted|now apply stringify_sortKeysRecursive].
Qed.


(* ===================================================================== *)
(** * How the transactions run *)
(* ===================================================================== *)

Lemma stored_or_vacant (st : stub) (rid : string) : stored st rid \/ vacant st rid.
Proof.
  unfold stored, vacant. destruct (state st !! rid) as [[|c b]|]; eauto.
Qed.

Lemma AssetExists_stored (st : stub) (rid : string) :
  stored st rid -> AssetExists rid st = (Returned (Bool true), st).
Proof.
  intros (b & E & Hb). unfold AssetExists, bind, getState, ret. rewrite E.
  destruct b; [congruence|reflexivity].
Qed.

Lemma AssetExists_vacant (st : stub) (rid : string) :
  vacant st rid ->
  exists e, AssetExists rid st = (Returned e, st) /\ truthy e = false.
Proof.
  unfold AssetExists, bind, getState, ret. intros [E|E]; rewrite E.
  - destruct (null_when_absent st); eexists; split; reflexivity.
  - eexists; split; reflexivity.
Qed.

Lemma CreateAsset_stored (st : stub) (rid : string) (sid bpm hrv time team : scalar) :
  stored st rid ->
  CreateAsset rid sid bpm hrv time team st = (Thrown (already_exists rid), st).
Proof.
  intros H. unfold CreateAsset, bind. now rewrite (AssetExists_stored _ _ H).
Qed.

Lemma CreateAsset_vacant (st : stub) (rid : string) (sid bpm hrv time team : scalar) :
  vacant st rid ->
  CreateAsset rid sid bpm hrv time team st =
  (Returned (JSON_stringify (to_value (created_asset rid sid bpm hrv time team))),
   put st rid (stored_form (created_asset rid sid bpm hrv time team))).
Proof.
  intros H. destruct (AssetExists_vacant _ _ H) as (e & E & He).
  unfold CreateAsset, bind. now rewrite E, He.
Qed.

Lemma ReadAsset_stored (st : stub) (rid buffer : string) :
  state st !! rid = Some buffer -> buffer <> "" ->
  ReadAsset rid st = (Returned buffer, st).
Proof.
  intros E Hb. unfold ReadAsset, bind, getState. rewrite E.
  destruct buffer; [congruence|reflexivity].
Qed.

Lemma ReadAsset_vacant (st : stub) (rid : string) :
  vacant st rid -> ReadAsset rid st = (Thrown (does_not_exist rid), st).
Proof.
  unfold ReadAsset, bind, getState. intros [E|E]; rewrite E; [|reflexivity].
  destruct (null_when_absent st); reflexivity.
Qed.

Lemma UpdateAsset_stored (st : stub) (rid : string) (sid bpm hrv time team : scalar) :
  stored st rid ->
  UpdateAsset rid sid bpm hrv time team st =
  (Returned tt, put st rid (stored_form (updated_asset rid sid bpm hrv time team))).
Proof.
  intros H. unfold UpdateAsset, bind. now rewrite (AssetExists_stored _ _ H).
Qed.

Lemma UpdateAsset_vacant (st : stub) (rid : string) (sid bpm hrv time team : scalar) :
  vacant st rid ->
  UpdateAsset rid sid bpm hrv time team st = (Thrown (does_not_exist rid), st).
Proof.
  intros H. destruct (AssetExists_vacant _ _ H) as (e & E & He).
  unfold UpdateAsset, bind. now rewrite E, He.
Qed.

Lemma DeleteAsset_stored (st : stub) (rid : string) :
  stored st rid -> DeleteAsset rid st = (Returned tt, del st rid).
Proof.
  intros H. unfold DeleteAsset, bind. now rewrite (AssetExists_stored _ _ H).
Qed.

Lemma DeleteAsset_vacant (st : stub) (rid : string) :
  vacant st rid -> DeleteAsset rid st = (Thrown (does_not_exist rid), st).
Proof.
  intros H. destruct (AssetExists_vacant _ _ H) as (e & E & He).
  unfold DeleteAsset, bind. now rewrite E, He.
Qed.

Lemma InitLedger_run (st : stub) :
  InitLedger st = (Returned tt, put st "101" (stored_form seeded_asset)).
Proof. reflexivity. Qed.

Lemma AssetExists_state (st : stub) (rid : string) : snd (AssetExists rid st) = st.
Proof.
  destruct (stored_or_vacant st rid) as [H|H].
  - now rewrite AssetExists_stored.
  - destruct (AssetExists_vacant _ _ H) as (e & -> & _). reflexivity.
Qed.

Lemma ReadAsset_state (st : stub) (rid : string) : snd (ReadAsset rid st) = st.
Proof.
  destruct (stored_or_vacant st rid) as [(b & E & Hb)|H].
  - now rewrite (ReadAsset_stored _ _ _ E Hb).
  - now rewrite ReadAsset_vacant.
Qed.

(** ** The records of the contract *)

Lemma created_asset_unique (rid : string) (sid bpm hrv time team : scalar) :
  keys_unique (created_asset rid sid bpm hrv time team) = true.
Proof. vm_compute. reflexivity. Qed.

Lemma updated_asset_unique (rid : string) (sid bpm hrv time team : scalar) :
  keys_unique (updated_asset rid sid bpm hrv time team) = true.
Proof. vm_compute. reflexivity. Qed.

Lemma seeded_asset_unique : keys_unique seeded_asset = true.
Proof. vm_compute. reflexivity. Qed.

Lemma created_asset_sorted (rid : string) (sid bpm hrv time team : scalar) :
  to_value (sortKeysRecursive (created_asset rid sid bpm hrv time team)) =
  VObj [ ("RID", VStr rid);
         ("Readings", VObj [("BPM", scalar_value bpm); ("HRV", scalar_value hrv)]);
         ("SID", scalar_value sid);
         ("Team", scalar_value team);
         ("Time", scalar_value time) ].
Proof. vm_compute. reflexivity. Qed.

Lemma updated_asset_sorted (rid : string) (sid bpm hrv time team : scalar) :
  to_value (sortKeysRecursive (updated_asset rid sid bpm hrv time team)) =
  VObj [ ("RID", VStr rid);
         ("Readings", VObj [("BPM", scalar_value bpm); ("HRV", scalar_value hrv)]);
         ("SID", scalar_value sid);
         ("TIme", scalar_value time);
         ("Team", scalar_value team) ].
Proof. vm_compute. reflexivity. Qed.

Lemma stored_form_decode (r : record) :
  keys_unique r = true -> decode (stored_form r) = Some (to_value (sortKeysRecursive r)).
Proof.
  intros H. unfold stored_form, Buffer_from.
  rewrite stringify_sortKeysRecursive by exact H. apply decode_stringify.
Qed.

Lemma stored_form_canonical (r : record) :
  keys_unique r = true -> canonical (stored_form r).
Proof. apply canonical_sortKeysRecursive. Qed.

Lemma JSON_stringify_nonempty (v : value) : JSON_stringify v <> "".
Proof. destruct (JSON_stringify_head v) as (c & r & -> & _). discriminate. Qed.

Lemma stored_form_nonempty (r : record) : keys_unique r = true -> stored_form r <> "".
Proof.
  intros H. unfold stored_form, Buffer_from.
  rewrite stringify_sortKeysRecursive by exact H. apply JSON_stringify_nonempty.
Qed.



(** ** The range scan and the loop of [GetAllAssets] *)

#[global] Instance key_le_total : Total key_le.
Proof. intros a b. unfold key_le. apply (total String.le). Qed.

#[global] Instance key_le_trans : Transitive key_le.
Proof. intros a b c. unfold key_le. apply (transitivity (R := String.le)). Qed.

Lemma filter_open_range (l : list (string * string)) :
  filter (fun kv => in_range "" "" (fst kv) = true) l = l.
Proof.
  induction l as [|kv l IH]; [reflexivity|].
  rewrite filter_cons_True by reflexivity. now rewrite IH.
Qed.

Lemma getStateByRange_open (st : stub) :
  getStateByRange "" "" st = (Returned (merge_sort key_le (map_to_list (state st))), st).
Proof. unfold getStateByRange. now rewrite filter_open_range. Qed.

Lemma drain_spec (JSON_parse : string -> option value)
    (iterator : list (string * string)) (allResults : list value) :
  drain JSON_parse iterator allResults =
  ((allResults ++ map (fun kv => listed JSON_parse (snd kv)) iterator)%list, []).
Proof.
  revert allResults. induction iterator as [|result iterator IH]; intros allResults.
  - cbn [drain map]. now rewrite app_nil_r.
  - cbn [drain map]. rewrite IH, <- app_assoc. reflexivity.
Qed.

Lemma GetAllAssets_run (JSON_parse : string -> option value) (st : stub) :
  GetAllAssets JSON_parse st =
  (Returned (JSON_stringify (VArr (map (fun kv => listed JSON_parse (snd kv))
                                       (merge_sort key_le (map_to_list (state st)))))),
   st).
Proof.
  unfold GetAllAssets, bind. rewrite getStateByRange_open, drain_spec. reflexivity.
Qed.

Lemma scan_elem (st : stub) (key buffer : string) :
  (key, buffer) ∈ merge_sort key_le (map_to_list (state st)) <->
  state st !! key = Some buffer.
Proof. rewrite merge_sort_Permutation. apply elem_of_map_to_list. Qed.


(** ** The encoder adds no whitespace *)









(* ===================================================================== *)
(** * The properties of the contract *)
(* ===================================================================== *)

Lemma vacant_empty_peer (rid : string) : vacant empty_peer rid.
Proof. left. apply lookup_empty. Qed.

Lemma stored_with_200 : stored with_200 "200".
Proof.
  eexists. split; [apply lookup_insert_eq|].
  apply stored_form_nonempty, created_asset_unique.
Qed.

Lemma vacant_with_empty_200 : vacant with_empty_200 "200".
Proof. right. apply lookup_insert_eq. Qed.












(** C4.  Create on an existing asset.  When an asset exists under [rid],
    [CreateAsset] throws "The asset <rid> already exists" and the world state
    is the one before the call. *)
Theorem C4_create_existing_fails (st : stub) (rid : string) (sid bpm hrv time team : scalar) :
  stored st rid ->
  fst (AssetExists rid st) = Returned (Bool true)
  /\ CreateAsset rid sid bpm hrv time team st
     = (Thrown ("The asset " +:+ rid +:+ " already exists"), st).
Proof.
  intros H. split; [now rewrite AssetExists_stored|now apply CreateAsset_stored].
Qed.

Lemma C4_witness :
  stored with_200 "200"
  /\ fst (AssetExists "200" with_200) = Returned (Bool true)
  /\ CreateAsset "200" (Str "6") (Num 90) (Num 11)
       (Str "2024-02-02T00:00:00.000Z") (Str "team3") with_200
     = (Thrown "The asset 200 already exists", with_200).
Proof.
  split; [apply stored_with_200|].
  apply (C4_create_existing_fails with_200 "200" (Str "6") (Num 90) (Num 11)
           (Str "2024-02-02T00:00:00.000Z") (Str "team3")).
  apply stored_with_200.
Defined.

(** C5.  Read, update and delete of a missing asset.  When no value, or an
    empty value, is stored under [rid], each of [ReadAsset], [UpdateAsset] and
    [DeleteAsset] throws "The asset <rid> does not exist" and the world state
    is the one before the call. *)
Theorem C5_missing_asset_fails (st : stub) (rid : string) (sid bpm hrv time team : scalar) :
  vacant st rid ->
  ReadAsset rid st = (Thrown ("The asset " +:+ rid +:+ " does not exist"), st)
  /\ UpdateAsset rid sid bpm hrv time team st
     = (Thrown ("The asset " +:+ rid +:+ " does not exist"), st)
  /\ DeleteAsset rid st = (Thrown ("The asset " +:+ rid +:+ " does not exist"), st).
Proof.
  intros H. split; [|split].
  - now apply ReadAsset_vacant.
  - now apply UpdateAsset_vacant.
  - now apply DeleteAsset_vacant.
Qed.

Lemma C5_witness :
  vacant with_200 "404"
  /\ ReadAsset "404" with_200 = (Thrown "The asset 404 does not exist", with_200)
  /\ UpdateAsset "404" (Str "6") (Num 90) (Num 11)
       (Str "2024-02-02T00:00:00.000Z") (Str "team3") with_200
     = (Thrown "The asset 404 does not exist", with_200)
  /\ DeleteAsset "404" with_200 = (Thrown "The asset 404 does not exist", with_200).
Proof.
  split; [left; reflexivity|].
  apply (C5_missing_asset_fails with_200 "404" (Str "6") (Num 90) (Num 11)
           (Str "2024-02-02T00:00:00.000Z") (Str "team3")).
  left; reflexivity.
Defined.


(** A listing with a stored text that is not JSON: the text is an element of
    the result, between the records. *)
Example listing_with_malformed_value :
  GetAllAssets decode (put (snd (InitLedger with_200)) "150" "{oops")
  = (Returned
       (JSON_stringify
          (VArr [ to_value (sortKeysRecursive seeded_asset);
                  VStr "{oops";
                  to_value (sortKeysRecursive
                              (created_asset "200" (Str "5") (Num 88) (Num 12)
                                 (Str "2024-01-01T00:00:00.000Z") (Str "team3"))) ])),
     put (snd (InitLedger with_200)) "150" "{oops").
Proof. vm_compute. reflexivity. Qed.

(** C7, as the contract has it.  [AssetExists] returns the value of
    [assetJSON && assetJSON.length > 0] and leaves the world state as it was.
    The value is [true] exactly when [getState] answered a buffer that is not
    empty, and only then is it truthy.  Otherwise it is falsy: [false] when
    [getState] answered an empty buffer, and the [null] or [undefined] that
    [getState] answered when it answered no buffer.  On a stub that answers
    every key with a buffer, as a peer does, the value is a boolean. *)
Theorem C7_AssetExists_truthy_iff_stored (st : stub) (rid : string) :
  exists (assetJSON : option string) (e : existence),
    getState rid st = (Returned assetJSON, st)
    /\ AssetExists rid st = (Returned e, st)
    /\ (e = Bool true <-> exists buffer, assetJSON = Some buffer /\ buffer <> "")
    /\ (truthy e = true <-> e = Bool true)
    /\ (assetJSON = Some "" -> e = Bool false)
    /\ (assetJSON = None -> e = Nullish)
    /\ (null_when_absent st = false -> exists b, e = Bool b).
Proof.
  unfold AssetExists, bind, getState, ret.
  destruct (state st !! rid) as [[|c buffer]|] eqn:E; [| |destruct (null_when_absent st)];
    eexists _, _; (split; [reflexivity|]); (split; [reflexivity|]); cbn [String.length Nat.ltb Nat.leb].
  all: repeat split; intros; try discriminate; try congruence; eauto.
  all: match goal with
       | H : exists buffer, _ = Some buffer /\ buffer <> "" |- _ =>
           destruct H as (b & Hb & Hne); congruence
       end.
Qed.

(** C7, as the specification has it, fails: on a stub that answers an absent
    key with [undefined], [AssetExists] returns that [undefined], which is not
    a boolean. *)
Lemma C7_undefined_is_returned :
  getState "101" empty_double = (Returned None, empty_double)
  /\ AssetExists "101" empty_double = (Returned Nullish, empty_double)
  /\ ~ (exists b : bool, fst (AssetExists "101" empty_double) = Returned (Bool b)).
Proof.
  split; [reflexivity|]. split; [reflexivity|].
  intros [b H]. discriminate H.
Qed.



(** C9.  An empty stored value counts as no asset.  When the value stored
    under [rid] is empty, [AssetExists] returns [false], [ReadAsset] throws
    "The asset <rid> does not exist", and [CreateAsset] succeeds and puts the
    canonical text of the new record, which is not empty, in the place of the
    empty value. *)
Theorem C9_empty_value_is_absence
    (st : stub) (rid : string) (sid bpm hrv time team : scalar) :
  state st !! rid = Some "" ->
  AssetExists rid st = (Returned (Bool false), st)
  /\ ReadAsset rid st = (Thrown ("The asset " +:+ rid +:+ " does not exist"), st)
  /\ exists returned written,
       CreateAsset rid sid bpm hrv time team st = (Returned returned, put st rid written)
       /\ written = stored_form (created_asset rid sid bpm hrv time team)
       /\ written <> ""
       /\ state (put st rid written) !! rid = Some written.
Proof.
  intros E. assert (Hvacant : vacant st rid) by now right.
  split; [unfold AssetExists, bind, getState, ret; now rewrite E|].
  split; [now apply ReadAsset_vacant|].
  eexists _, _. split; [apply (CreateAsset_vacant _ _ _ _ _ _ _ Hvacant)|].
  split; [reflexivity|].
  split; [apply stored_form_nonempty, created_asset_unique|apply lookup_insert_eq].
Qed.

Lemma C9_witness :
  state with_empty_200 !! "200" = Some ""
  /\ AssetExists "200" with_empty_200 = (Returned (Bool false), with_empty_200)
  /\ ReadAsset "200" with_empty_200
     = (Thrown "The asset 200 does not exist", with_empty_200)
  /\ exists returned written,
       CreateAsset "200" (Str "5") (Num 88) (Num 12)
         (Str "2024-01-01T00:00:00.000Z") (Str "team3") with_empty_200
       = (Returned returned, put with_empty_200 "200" written)
       /\ written = stored_form (created_asset "200" (Str "5") (Num 88) (Num 12)
                                  (Str "2024-01-01T00:00:00.000Z") (Str "team3"))
       /\ written <> ""
       /\ state (put with_empty_200 "200" written) !! "200" = Some written.
Proof.
  split; [reflexivity|].
  apply (C9_empty_value_is_absence with_empty_200 "200" (Str "5") (Num 88) (Num 12)
           (Str "2024-01-01T00:00:00.000Z") (Str "team3")).
  reflexivity.
Defined.

(** C10.  Frame.  [CreateAsset], [UpdateAsset] and [DeleteAsset] leave the
    value stored under every key other than their [rid] as it was, whether
    they succeed or throw; [ReadAsset], [AssetExists] and [GetAllAssets] leave
    the whole world state as it was. *)
Theorem C10_only_rid_is_touched
    (JSON_parse : string -> option value) (st : stub) (rid key : string)
    (sid bpm hrv time team : scalar) :
  key <> rid ->
  state (snd (CreateAsset rid sid bpm hrv time team st)) !! key = state st !! key
  /\ state (snd (UpdateAsset rid sid bpm hrv time team st)) !! key = state st !! key
  /\ state (snd (DeleteAsset rid st)) !! key = state st !! key
  /\ snd (ReadAsset rid st) = st
  /\ snd (AssetExists rid st) = st
  /\ snd (GetAllAssets JSON_parse st) = st.
Proof.
  intros Hkey.
  destruct (stored_or_vacant st rid) as [H|H].
  - rewrite CreateAsset_stored, UpdateAsset_stored, DeleteAsset_stored by exact H.
    rewrite ReadAsset_state, AssetExists_state, GetAllAssets_run. cbn [snd put del state].
    rewrite lookup_insert_ne, lookup_delete_ne by congruence. repeat split.
  - rewrite CreateAsset_vacant, UpdateAsset_vacant, DeleteAsset_vacant by exact H.
    rewrite ReadAsset_state, AssetExists_state, GetAllAssets_run. cbn [snd put state].
    rewrite lookup_insert_ne by congruence. repeat split.
Qed.

Lemma C10_witness :
  "101" <> "200"
  /\ state (snd (CreateAsset "200" (Str "5") (Num 88) (Num 12)
                   (Str "2024-01-01T00:00:00.000Z") (Str "team3") with_200)) !! "101"
     = state with_200 !! "101"
  /\ state (snd (UpdateAsset "200" (Str "5") (Num 88) (Num 12)
                   (Str "2024-01-01T00:00:00.000Z") (Str "team3") with_200)) !! "101"
     = state with_200 !! "101"
  /\ state (snd (DeleteAsset "200" with_200)) !! "101" = state with_200 !! "101"
  /\ snd (ReadAsset "200" with_200) = with_200
  /\ snd (AssetExists "200" with_200) = with_200
  /\ snd (GetAllAssets decode with_200) = with_200.
Proof.
  split; [discriminate|].
  apply (C10_only_rid_is_touched decode with_200 "200" "101" (Str "5") (Num 88) (Num 12)
           (Str "2024-01-01T00:00:00.000Z") (Str "team3")).
  discriminate.
Defined.

(* ===================================================================== *)
(** * Further properties: how the transactions compose *)
(* ===================================================================== *)

Lemma stub_eta (st : stub) : Stub (state st) (null_when_absent st) = st.
Proof. now destruct st. Qed.

Lemma stored_put (st : stub) (rid text : string) : text <> "" -> stored (put st rid text) rid.
Proof. intros H. exists text. split; [apply lookup_insert_eq|exact H]. Qed.

Lemma vacant_del (st : stub) (rid : string) : vacant (del st rid) rid.
Proof. left. apply lookup_delete_eq. Qed.

Lemma stored_created (st : stub) (rid : string) (sid bpm hrv time team : scalar) :
  stored (put st rid (stored_form (created_asset rid sid bpm hrv time team))) rid.
Proof. apply stored_put, stored_form_nonempty, created_asset_unique. Qed.

Lemma stored_updated (st : stub) (rid : string) (sid bpm hrv time team : scalar) :
  stored (put st rid (stored_form (updated_asset rid sid bpm hrv time team))) rid.
Proof. apply stored_put, stored_form_nonempty, updated_asset_unique. Qed.

Lemma put_put (st : stub) (rid a b : string) : put (put st rid a) rid b = put st rid b.
Proof. unfold put. cbn [state null_when_absent]. now rewrite insert_insert_eq. Qed.


(** X2.  After a delete.  When an asset exists under [rid], [DeleteAsset]
    returns and removes the key: the other keys keep their values, the number
    of stored keys drops by one, the scan no longer has an entry for [rid],
    [AssetExists] is falsy, and [ReadAsset] and a second [DeleteAsset]
    throw. *)
Theorem X2_delete_then_gone (st : stub) (rid : string) :
  stored st rid ->
  exists st',
    DeleteAsset rid st = (Returned tt, st')
    /\ state st' !! rid = None
    /\ (forall key, key <> rid -> state st' !! key = state st !! key)
    /\ S (base.size (state st')) = base.size (state st)
    /\ (rid ∉ map fst (scan st'))
    /\ (exists e, AssetExists rid st' = (Returned e, st') /\ truthy e = false)
    /\ ReadAsset rid st' = (Thrown (does_not_exist rid), st')
    /\ DeleteAsset rid st' = (Thrown (does_not_exist rid), st').
Proof.
  intros H. exists (del st rid).
  pose proof (vacant_del st rid) as Hv.
  split; [now apply DeleteAsset_stored|].
  split; [apply lookup_delete_eq|].
  split; [intros key Hk; cbn [del state]; now rewrite lookup_delete_ne|].
  split.
  { destruct H as (b & E & _). cbn [del state].
    rewrite map_size_delete_Some by eauto.
    assert (base.size (state st) <> 0%nat); [|lia].
    intros Hz. apply map_size_empty_iff in Hz. rewrite Hz, lookup_empty in E. discriminate. }
  split.
  { intros Hin. apply elem_of_map in Hin as ([k b] & -> & Hkb).
    apply scan_elem in Hkb. cbn [fst del state] in Hkb.
    rewrite lookup_delete_eq in Hkb. discriminate. }
  split; [now apply AssetExists_vacant|].
  split; [now apply ReadAsset_vacant|now apply DeleteAsset_vacant].
Qed.

Lemma X2_witness :
  stored with_200 "200"
  /\ exists st',
      DeleteAsset "200" with_200 = (Returned tt, st')
      /\ state st' !! "200" = None
      /\ (forall key, key <> "200" -> state st' !! key = state with_200 !! key)
      /\ S (base.size (state st')) = base.size (state with_200)
      /\ ("200" ∉ map fst (scan st'))
      /\ (exists e, AssetExists "200" st' = (Returned e, st') /\ truthy e = false)
      /\ ReadAsset "200" st' = (Thrown (does_not_exist "200"), st')
      /\ DeleteAsset "200" st' = (Thrown (does_not_exist "200"), st').
Proof.
  split; [apply stored_with_200|].
  apply (X2_delete_then_gone with_200 "200"), stored_with_200.
Defined.

(** X3.  Create, then delete.  When no value is stored under [rid],
    [CreateAsset] followed by [DeleteAsset] of the same [rid] both return and
    leave the world state exactly as it was before the two calls. *)
Theorem X3_create_then_delete_restores
    (st : stub) (rid : string) (sid bpm hrv time team : scalar) :
  state st !! rid = None ->
  exists text st1,
    CreateAsset rid sid bpm hrv time team st = (Returned text, st1)
    /\ DeleteAsset rid st1 = (Returned tt, st).
Proof.
  intros E. assert (Hv : vacant st rid) by now left.
  eexists _, _. split; [apply (CreateAsset_vacant _ _ _ _ _ _ _ Hv)|].
  rewrite DeleteAsset_stored by apply stored_created.
  f_equal. unfold del, put. cbn [state null_when_absent].
  rewrite delete_insert_eq, delete_id by exact E. apply stub_eta.
Qed.

Lemma X3_witness :
  state empty_peer !! "200" = None
  /\ exists text st1,
      CreateAsset "200" (Str "5") (Num 88) (Num 12)
        (Str "2024-01-01T00:00:00.000Z") (Str "team3") empty_peer = (Returned text, st1)
      /\ DeleteAsset "200" st1 = (Returned tt, empty_peer).
Proof.
  split; [reflexivity|].
  apply (X3_create_then_delete_restores empty_peer "200" (Str "5") (Num 88) (Num 12)
           (Str "2024-01-01T00:00:00.000Z") (Str "team3")).
  reflexivity.
Defined.

Lemma seeded_asset_sorted :
  to_value (sortKeysRecursive seeded_asset) =
  VObj [ ("RID", VStr "101");
         ("Readings", VObj [("BPM", VNum 100); ("HRV", VNum 10)]);
         ("SID", VStr "1");
         ("Team", VStr "team3");
         ("Time", VStr "2023-11-04T15:30:00.000Z");
         ("docType", VStr "asset") ].
Proof. vm_compute. reflexivity. Qed.

(** X4.  [InitLedger] does not test for existence.  From any world state it
    returns and puts the seed record under "101", whatever was stored there;
    the other keys keep their values, and a second [InitLedger] changes
    nothing more.  Afterwards the asset "101" exists, [ReadAsset] returns a
    text that denotes the seed record with [docType] "asset", and
    [CreateAsset] of "101" throws. *)
Theorem X4_InitLedger_overwrites (st : stub) :
  exists st',
    InitLedger st = (Returned tt, st')
    /\ (forall key, key <> "101" -> state st' !! key = state st !! key)
    /\ InitLedger st' = (Returned tt, st')
    /\ AssetExists "101" st' = (Returned (Bool true), st')
    /\ (exists text,
          ReadAsset "101" st' = (Returned text, st')
          /\ decode text =
             Some (VObj [ ("RID", VStr "101");
                          ("Readings", VObj [("BPM", VNum 100); ("HRV", VNum 10)]);
                          ("SID", VStr "1");
                          ("Team", VStr "team3");
                          ("Time", VStr "2023-11-04T15:30:00.000Z");
                          ("docType", VStr "asset") ]))
    /\ (forall sid bpm hrv time team,
          CreateAsset "101" sid bpm hrv time team st'
          = (Thrown (already_exists "101"), st')).
Proof.
  exists (put st "101" (stored_form seeded_asset)).
  assert (Hs : stored (put st "101" (stored_form seeded_asset)) "101")
    by apply stored_put, stored_form_nonempty, seeded_asset_unique.
  split; [apply InitLedger_run|].
  split; [intros key Hk; cbn [put state]; now rewrite lookup_insert_ne|].
  split; [rewrite InitLedger_run; now rewrite put_put|].
  split; [now apply AssetExists_stored|].
  split.
  - eexists. split.
    + apply ReadAsset_stored; [apply lookup_insert_eq|].
      apply stored_form_nonempty, seeded_asset_unique.
    + rewrite stored_form_decode by apply seeded_asset_unique.
      now rewrite seeded_asset_sorted.
  - intros. now apply CreateAsset_stored.
Qed.



(** X6.  The last update wins.  When an asset exists under [rid], two
    [UpdateAsset] calls in a row leave the world state that the second call
    alone leaves; in particular an update repeated with the same arguments
    changes nothing more. *)
Theorem X6_last_update_wins
    (st : stub) (rid : string) (sid bpm hrv time team sid' bpm' hrv' time' team' : scalar) :
  stored st rid ->
  snd (UpdateAsset rid sid' bpm' hrv' time' team'
         (snd (UpdateAsset rid sid bpm hrv time team st)))
  = snd (UpdateAsset rid sid' bpm' hrv' time' team' st)
  /\ fst (UpdateAsset rid sid' bpm' hrv' time' team'
            (snd (UpdateAsset rid sid bpm hrv time team st))) = Returned tt.
Proof.
  intros H. rewrite (UpdateAsset_stored st) by exact H. cbn [snd].
  rewrite UpdateAsset_stored by apply stored_updated.
  rewrite UpdateAsset_stored by exact H. cbn [fst snd].
  split; [apply put_put|reflexivity].
Qed.

Lemma X6_witness :
  stored with_200 "200"
  /\ snd (UpdateAsset "200" (Str "6") (Num 90) (Num 11)
            (Str "2024-02-02T00:00:00.000Z") (Str "team4")
            (snd (UpdateAsset "200" (Str "5") (Num 1) (Num 2)
                    (Str "2024-03-03T00:00:00.000Z") (Str "team3") with_200)))
     = snd (UpdateAsset "200" (Str "6") (Num 90) (Num 11)
              (Str "2024-02-02T00:00:00.000Z") (Str "team4") with_200)
  /\ fst (UpdateAsset "200" (Str "6") (Num 90) (Num 11)
            (Str "2024-02-02T00:00:00.000Z") (Str "team4")
            (snd (UpdateAsset "200" (Str "5") (Num 1) (Num 2)
                    (Str "2024-03-03T00:00:00.000Z") (Str "team3") with_200)))
     = Returned tt.
Proof.
  split; [apply stored_with_200|].
  apply (X6_last_update_wins with_200 "200"
           (Str "5") (Num 1) (Num 2) (Str "2024-03-03T00:00:00.000Z") (Str "team3")
           (Str "6") (Num 90) (Num 11) (Str "2024-02-02T00:00:00.000Z") (Str "team4")).
  apply stored_with_200.
Defined.

(** X7.  The first create wins.  When no asset exists under [rid], a
    [CreateAsset] returns, a second [CreateAsset] of the same [rid] throws
    whatever its arguments and changes nothing, and [ReadAsset] still returns
    the canonical text of the first record. *)
Theorem X7_first_create_wins
    (st : stub) (rid : string) (sid bpm hrv time team sid' bpm' hrv' time' team' : scalar) :
  vacant st rid ->
  exists returned st1,
    CreateAsset rid sid bpm hrv time team st = (Returned returned, st1)
    /\ CreateAsset rid sid' bpm' hrv' time' team' st1 = (Thrown (already_exists rid), st1)
    /\ ReadAsset rid st1
       = (Returned (stored_form (created_asset rid sid bpm hrv time team)), st1).
Proof.
  intros Hv.
  eexists _, _. split; [apply (CreateAsset_vacant _ _ _ _ _ _ _ Hv)|].
  split; [apply CreateAsset_stored, stored_created|].
  apply ReadAsset_stored; [apply lookup_insert_eq|].
  apply stored_form_nonempty, created_asset_unique.
Qed.

Lemma X7_witness :
  vacant empty_peer "200"
  /\ exists returned st1,
      CreateAsset "200" (Str "5") (Num 88) (Num 12)
        (Str "2024-01-01T00:00:00.000Z") (Str "team3") empty_peer = (Returned returned, st1)
      /\ CreateAsset "200" (Str "6") (Num 90) (Num 11)
           (Str "2024-02-02T00:00:00.000Z") (Str "team4") st1
         = (Thrown (already_exists "200"), st1)
      /\ ReadAsset "200" st1
         = (Returned (stored_form (created_asset "200" (Str "5") (Num 88) (Num 12)
                                     (Str "2024-01-01T00:00:00.000Z") (Str "team3"))), st1).
Proof.
  split; [left; reflexivity|].
  apply (X7_first_create_wins empty_peer "200"
           (Str "5") (Num 88) (Num 12) (Str "2024-01-01T00:00:00.000Z") (Str "team3")
           (Str "6") (Num 90) (Num 11) (Str "2024-02-02T00:00:00.000Z") (Str "team4")).
  left; reflexivity.
Defined.

(** ** One key per transaction *)

Lemma readers_write_nothing (JSON_parse : string -> option value) (c : call) (st : stub) :
  written_key c = None -> invoke JSON_parse c st = st.
Proof.
  destruct c; try discriminate; intros _; cbn [invoke].
  - apply ReadAsset_state.
  - apply AssetExists_state.
  - now rewrite GetAllAssets_run.
Qed.

Lemma put_as_rewrite (st : stub) (key text : string) (g : option string -> option string) :
  g (state st !! key) = Some text ->
  put st key text = Stub (partial_alter g key (state st)) (null_when_absent st).
Proof.
  intros H. unfold put. f_equal. apply partial_alter_ext. intros x <-. now rewrite H.
Qed.

Lemma del_as_rewrite (st : stub) (key : string) (g : option string -> option string) :
  g (state st !! key) = None ->
  del st key = Stub (partial_alter g key (state st)) (null_when_absent st).
Proof.
  intros H. unfold del. f_equal. apply partial_alter_ext. intros x <-. now rewrite H.
Qed.

Lemma same_as_rewrite (st : stub) (key : string) (g : option string -> option string) :
  g (state st !! key) = state st !! key ->
  st = Stub (partial_alter g key (state st)) (null_when_absent st).
Proof. intros H. rewrite partial_alter_id by exact H. symmetry. apply stub_eta. Qed.

(** A writer rewrites the value under its key by a function of that value
    alone. *)
Lemma writers_rewrite_one_key (JSON_parse : string -> option value) (c : call) (key : string) :
  written_key c = Some key ->
  exists g : option string -> option string,
    forall st, invoke JSON_parse c st
               = Stub (partial_alter g key (state st)) (null_when_absent st).
Proof.
  destruct c as [|rid sid bpm hrv time team|rid|rid sid bpm hrv time team|rid|rid|];
    try discriminate; intros [= <-]; cbn [invoke].
  - exists (fun _ => Some (stored_form seeded_asset)). intros st.
    rewrite InitLedger_run. now apply put_as_rewrite.
  - exists (fun cur => match cur with
                       | Some (String _ _) => cur
                       | _ => Some (stored_form (created_asset rid sid bpm hrv time team))
                       end).
    intros st. destruct (stored_or_vacant st rid) as [H|H].
    + rewrite CreateAsset_stored by exact H. cbn [snd]. apply same_as_rewrite.
      destruct H as ([|a b] & -> & Hb); [congruence|reflexivity].
    + rewrite CreateAsset_vacant by exact H. cbn [snd]. apply put_as_rewrite.
      destruct H as [-> | ->]; reflexivity.
  - exists (fun cur => match cur with
                       | Some (String _ _) =>
                           Some (stored_form (updated_asset rid sid bpm hrv time team))
                       | _ => cur
                       end).
    intros st. destruct (stored_or_vacant st rid) as [H|H].
    + rewrite UpdateAsset_stored by exact H. cbn [snd]. apply put_as_rewrite.
      destruct H as ([|a b] & -> & Hb); [congruence|reflexivity].
    + rewrite UpdateAsset_vacant by exact H. cbn [snd]. apply same_as_rewrite.
      destruct H as [-> | ->]; reflexivity.
  - exists (fun cur => match cur with
                       | Some (String _ _) => None
                       | _ => cur
                       end).
    intros st. destruct (stored_or_vacant st rid) as [H|H].
    + rewrite DeleteAsset_stored by exact H. cbn [snd]. apply del_as_rewrite.
      destruct H as ([|a b] & -> & Hb); [congruence|reflexivity].
    + rewrite DeleteAsset_vacant by exact H. cbn [snd]. apply same_as_rewrite.
      destruct H as [-> | ->]; reflexivity.
Qed.

(** X8.  Transactions on different keys commute.  Two proposals that do not
    write under the same key leave the same world state in either order;
    [InitLedger] writes under "101", the three writers under their [rid], and
    the readers write nowhere. *)
Theorem X8_distinct_keys_commute
    (JSON_parse : string -> option value) (c1 c2 : call) (st : stub) :
  (forall k1 k2, written_key c1 = Some k1 -> written_key c2 = Some k2 -> k1 <> k2) ->
  invoke JSON_parse c2 (invoke JSON_parse c1 st)
  = invoke JSON_parse c1 (invoke JSON_parse c2 st).
Proof.
  intros Hne.
  destruct (written_key c1) as [k1|] eqn:E1;
    [|now rewrite !(readers_write_nothing _ c1) by exact E1].
  destruct (written_key c2) as [k2|] eqn:E2;
    [|now rewrite !(readers_write_nothing _ c2) by exact E2].
  destruct (writers_rewrite_one_key JSON_parse c1 k1 E1) as [g1 H1].
  destruct (writers_rewrite_one_key JSON_parse c2 k2 E2) as [g2 H2].
  rewrite (H1 st), (H2 st), H1, H2. cbn [state null_when_absent]. f_equal.
  apply partial_alter_partial_alter_ne. specialize (Hne k1 k2 eq_refl eq_refl). congruence.
Qed.

Lemma X8_witness :
  (forall k1 k2,
      written_key (CallDeleteAsset "200") = Some k1 ->
      written_key CallInitLedger = Some k2 -> k1 <> k2)
  /\ invoke decode CallInitLedger (invoke decode (CallDeleteAsset "200") with_200)
     = invoke decode (CallDeleteAsset "200") (invoke decode CallInitLedger with_200).
Proof.
  assert (H : forall k1 k2,
             written_key (CallDeleteAsset "200") = Some k1 ->
             written_key CallInitLedger = Some k2 -> k1 <> k2).
  { intros k1 k2 [= <-] [= <-]. discriminate. }
  split; [exact H|].
  apply (X8_distinct_keys_commute decode (CallDeleteAsset "200") CallInitLedger with_200 H).
Defined.

(** X9.  A transaction reads one key.  On two stubs of the same kind that
    store the same value under [rid], each of the five transactions that take
    a [rid] ends the same way, with the same returned value or the same
    message, and leaves the same value under [rid], whatever the two world
    states hold under other keys. *)
Theorem X9_outcome_depends_on_rid_only
    (st1 st2 : stub) (rid : string) (sid bpm hrv time team : scalar) :
  state st1 !! rid = state st2 !! rid ->
  null_when_absent st1 = null_when_absent st2 ->
  fst (AssetExists rid st1) = fst (AssetExists rid st2)
  /\ fst (ReadAsset rid st1) = fst (ReadAsset rid st2)
  /\ fst (CreateAsset rid sid bpm hrv time team st1)
     = fst (CreateAsset rid sid bpm hrv time team st2)
  /\ fst (UpdateAsset rid sid bpm hrv time team st1)
     = fst (UpdateAsset rid sid bpm hrv time team st2)
  /\ fst (DeleteAsset rid st1) = fst (DeleteAsset rid st2)
  /\ state (snd (CreateAsset rid sid bpm hrv time team st1)) !! rid
     = state (snd (CreateAsset rid sid bpm hrv time team st2)) !! rid
  /\ state (snd (UpdateAsset rid sid bpm hrv time team st1)) !! rid
     = state (snd (UpdateAsset rid sid bpm hrv time team st2)) !! rid
  /\ state (snd (DeleteAsset rid st1)) !! rid = state (snd (DeleteAsset rid st2)) !! rid.
Proof.
  intros E Hflag.
  assert (HA : fst (AssetExists rid st1) = fst (AssetExists rid st2)).
  { unfold AssetExists, bind, getState, ret. rewrite E, Hflag.
    destruct (state st2 !! rid); [reflexivity|]. now destruct (null_when_absent st2). }
  assert (HR : fst (ReadAsset rid st1) = fst (ReadAsset rid st2)).
  { unfold ReadAsset, bind, getState, ret, throw. rewrite E, Hflag.
    destruct (state st2 !! rid) as [[|a b]|]; try reflexivity.
    now destruct (null_when_absent st2). }
  split; [exact HA|]. split; [exact HR|].
  destruct (stored_or_vacant st1 rid) as [H1|H1].
  - assert (H2 : stored st2 rid) by (unfold stored in *; now rewrite <- E).
    rewrite !CreateAsset_stored, !UpdateAsset_stored, !DeleteAsset_stored by assumption.
    cbn [fst snd put del state]. rewrite !lookup_insert_eq, !lookup_delete_eq.
    repeat split. exact E.
  - assert (H2 : vacant st2 rid) by (unfold vacant in *; now rewrite <- E).
    rewrite !CreateAsset_vacant, !UpdateAsset_vacant, !DeleteAsset_vacant by assumption.
    cbn [fst snd put state]. rewrite !lookup_insert_eq.
    repeat split; exact E.
Qed.

Lemma X9_witness :
  state with_200 !! "200" = state with_101_and_200 !! "200"
  /\ null_when_absent with_200 = null_when_absent with_101_and_200
  /\ fst (AssetExists "200" with_200) = fst (AssetExists "200" with_101_and_200)
  /\ fst (ReadAsset "200" with_200) = fst (ReadAsset "200" with_101_and_200)
  /\ fst (CreateAsset "200" (Str "6") (Num 90) (Num 11)
            (Str "2024-02-02T00:00:00.000Z") (Str "team4") with_200)
     = fst (CreateAsset "200" (Str "6") (Num 90) (Num 11)
              (Str "2024-02-02T00:00:00.000Z") (Str "team4") with_101_and_200)
  /\ fst (UpdateAsset "200" (Str "6") (Num 90) (Num 11)
            (Str "2024-02-02T00:00:00.000Z") (Str "team4") with_200)
     = fst (UpdateAsset "200" (Str "6") (Num 90) (Num 11)
              (Str "2024-02-02T00:00:00.000Z") (Str "team4") with_101_and_200)
  /\ fst (DeleteAsset "200" with_200) = fst (DeleteAsset "200" with_101_and_200)
  /\ state (snd (CreateAsset "200" (Str "6") (Num 90) (Num 11)
                   (Str "2024-02-02T00:00:00.000Z") (Str "team4") with_200)) !! "200"
     = state (snd (CreateAsset "200" (Str "6") (Num 90) (Num 11)
                     (Str "2024-02-02T00:00:00.000Z") (Str "team4") with_101_and_200)) !! "200"
  /\ state (snd (UpdateAsset "200" (Str "6") (Num 90) (Num 11)
                   (Str "2024-02-02T00:00:00.000Z") (Str "team4") with_200)) !! "200"
     = state (snd (UpdateAsset "200" (Str "6") (Num 90) (Num 11)
                     (Str "2024-02-02T00:00:00.000Z") (Str "team4") with_101_and_200)) !! "200"
  /\ state (snd (DeleteAsset "200" with_200)) !! "200"
     = state (snd (DeleteAsset "200" with_101_and_200)) !! "200".
Proof.
  split; [reflexivity|]. split; [reflexivity|].
  apply (X9_outcome_depends_on_rid_only with_200 with_101_and_200 "200"
           (Str "6") (Num 90) (Num 11) (Str "2024-02-02T00:00:00.000Z") (Str "team4"));
    reflexivity.
Defined.

(** ** What every stored value looks like *)

Lemma asset_shaped_created (rid : string) (sid bpm hrv time team : scalar) :
  asset_shaped rid (to_value (sortKeysRecursive (created_asset rid sid bpm hrv time team))).
Proof.
  rewrite created_asset_sorted. unfold asset_shaped.
  split; [reflexivity|]. do 4 (split; [eexists; reflexivity|]).
  split; [reflexivity|intros _; eexists; reflexivity].
Qed.

Lemma asset_shaped_updated (rid : string) (sid bpm hrv time team : scalar) :
  asset_shaped rid (to_value (sortKeysRecursive (updated_asset rid sid bpm hrv time team))).
Proof.
  rewrite updated_asset_sorted. unfold asset_shaped.
  split; [reflexivity|]. do 4 (split; [eexists; reflexivity|]).
  split; [intros [x Hx]; discriminate Hx|intros Hx; discriminate Hx].
Qed.

Lemma asset_shaped_seeded : asset_shaped "101" (to_value (sortKeysRecursive seeded_asset)).
Proof.
  rewrite seeded_asset_sorted. unfold asset_shaped.
  split; [reflexivity|]. do 4 (split; [eexists; reflexivity|]).
  split; [reflexivity|intros _; eexists; reflexivity].
Qed.

Lemma well_kept_put (st : stub) (key : string) (r : record) :
  well_kept st -> keys_unique r = true ->
  asset_shaped key (to_value (sortKeysRecursive r)) ->
  well_kept (put st key (stored_form r)).
Proof.
  intros Hst Hu Hshape k b. cbn [put state]. rewrite lookup_insert.
  case_decide as Hk; [|apply Hst].
  intros [= <-]. subst k. split; [now apply stored_form_canonical|].
  eexists. split; [now apply stored_form_decode|exact Hshape].
Qed.

Lemma well_kept_del (st : stub) (key : string) : well_kept st -> well_kept (del st key).
Proof.
  intros Hst k b. cbn [del state]. rewrite lookup_delete.
  case_decide; [discriminate|apply Hst].
Qed.

Lemma well_kept_invoke (JSON_parse : string -> option value) (c : call) (st : stub) :
  well_kept st -> well_kept (invoke JSON_parse c st).
Proof.
  intros Hst.
  destruct c as [|rid sid bpm hrv time team|rid|rid sid bpm hrv time team|rid|rid|];
    cbn [invoke].
  - rewrite InitLedger_run. cbn [snd].
    apply well_kept_put; [exact Hst|apply seeded_asset_unique|apply asset_shaped_seeded].
  - destruct (stored_or_vacant st rid) as [H|H].
    + now rewrite CreateAsset_stored.
    + rewrite CreateAsset_vacant by exact H. cbn [snd].
      apply well_kept_put;
        [exact Hst|apply created_asset_unique|apply asset_shaped_created].
  - now rewrite ReadAsset_state.
  - destruct (stored_or_vacant st rid) as [H|H].
    + rewrite UpdateAsset_stored by exact H. cbn [snd].
      apply well_kept_put;
        [exact Hst|apply updated_asset_unique|apply asset_shaped_updated].
    + now rewrite UpdateAsset_vacant.
  - destruct (stored_or_vacant st rid) as [H|H].
    + rewrite DeleteAsset_stored by exact H. now apply well_kept_del.
    + now rewrite DeleteAsset_vacant.
  - now rewrite AssetExists_state.
  - now rewrite GetAllAssets_run.
Qed.

Lemma decode_empty : decode "" = None.
Proof. reflexivity. Qed.

(** X10.  What a ledger holds after any sequence of transactions.  If every
    stored value is the canonical text of an asset whose [RID] is the key it
    is stored under, with [SID], [Readings.BPM], [Readings.HRV], [Team] and
    the timestamp under exactly one of [Time] and [TIme], then this is still
    so after any list of proposals, failed ones included.  No stored value is
    then empty, so an asset exists exactly under the keys that have a
    value. *)
Theorem X10_ledger_stays_well_kept
    (JSON_parse : string -> option value) (calls : list call) (st : stub) :
  well_kept st ->
  well_kept (run_calls JSON_parse calls st)
  /\ (forall key, stored (run_calls JSON_parse calls st) key
                  <-> is_Some (state (run_calls JSON_parse calls st) !! key)).
Proof.
  intros Hst.
  assert (H : well_kept (run_calls JSON_parse calls st)).
  { unfold run_calls. revert st Hst.
    induction calls as [|c calls IH]; intros st Hst; [exact Hst|].
    cbn [fold_left]. apply IH. now apply well_kept_invoke. }
  split; [exact H|].
  intros key. split.
  - intros (b & E & _). eauto.
  - intros [b E]. exists b. split; [exact E|].
    intros ->. destruct (H key "" E) as (_ & v & Hd & _).
    rewrite decode_empty in Hd. discriminate.
Qed.

Lemma well_kept_empty (b : bool) : well_kept (Stub ∅ b).
Proof. intros k v H. cbn [state] in H. rewrite lookup_empty in H. discriminate. Qed.

Lemma X10_witness :
  well_kept empty_peer
  /\ well_kept
       (run_calls decode
          [ CallInitLedger;
            CallCreateAsset "200" (Str "5") (Num 88) (Num 12)
              (Str "2024-01-01T00:00:00.000Z") (Str "team3");
            CallUpdateAsset "101" (Str "6") (Num 90) (Num 11)
              (Str "2024-02-02T00:00:00.000Z") (Str "team4");
            CallDeleteAsset "404" ]
          empty_peer)
  /\ (forall key,
        stored (run_calls decode
                  [ CallInitLedger;
                    CallCreateAsset "200" (Str "5") (Num 88) (Num 12)
                      (Str "2024-01-01T00:00:00.000Z") (Str "team3");
                    CallUpdateAsset "101" (Str "6") (Num 90) (Num 11)
                      (Str "2024-02-02T00:00:00.000Z") (Str "team4");
                    CallDeleteAsset "404" ]
                  empty_peer) key
        <-> is_Some (state (run_calls decode
                              [ CallInitLedger;
                                CallCreateAsset "200" (Str "5") (Num 88) (Num 12)
                                  (Str "2024-01-01T00:00:00.000Z") (Str "team3");
                                CallUpdateAsset "101" (Str "6") (Num 90) (Num 11)
                                  (Str "2024-02-02T00:00:00.000Z") (Str "team4");
                                CallDeleteAsset "404" ]
                              empty_peer) !! key)).
Proof.
  split; [apply well_kept_empty|].
  apply (X10_ledger_stays_well_kept decode
           [ CallInitLedger;
             CallCreateAsset "200" (Str "5") (Num 88) (Num 12)
               (Str "2024-01-01T00:00:00.000Z") (Str "team3");
             CallUpdateAsset "101" (Str "6") (Num 90) (Num 11)
               (Str "2024-02-02T00:00:00.000Z") (Str "team4");
             CallDeleteAsset "404" ]
           empty_peer).
  apply well_kept_empty.
Defined.

(** ** More on the listing *)




(** X12.  How many records are listed.  [GetAllAssets] returns the text of an
    array with one element per stored key, also for the keys with an empty
    value; on a world state without keys it returns the text of the empty
    array. *)
Theorem X12_listing_counts_the_keys (JSON_parse : string -> option value) (st : stub) :
  exists records,
    GetAllAssets JSON_parse st = (Returned (JSON_stringify (VArr records)), st)
    /\ length records = base.size (state st)
    /\ (state st = ∅ -> JSON_stringify (VArr records) = "[]").
Proof.
  eexists. split; [apply GetAllAssets_run|].
  split.
  - rewrite length_map, merge_sort_Permutation. apply length_map_to_list.
  - intros ->. rewrite map_to_list_empty. reflexivity.
Qed.

(** X13.  An empty value is listed all the same.  When the value stored under
    a key is empty and [JSON.parse] throws on the empty text, [AssetExists] is
    falsy for the key, and yet the scan of [GetAllAssets] has an entry for it,
    for which the loop pushes the empty string. *)
Theorem X13_empty_value_is_listed
    (JSON_parse : string -> option value) (st : stub) (key : string) :
  JSON_parse "" = None ->
  state st !! key = Some "" ->
  (exists e, AssetExists key st = (Returned e, st) /\ truthy e = false)
  /\ exists i,
       scan st !! i = Some (key, "")
       /\ fst (drain JSON_parse (scan st) []) !! i = Some (VStr "").
Proof.
  intros Hparse E.
  split; [apply AssetExists_vacant; now right|].
  apply scan_elem, list_elem_of_lookup_1 in E as [i Hi]. exists i.
  split; [exact Hi|].
  unfold scan. rewrite drain_spec. cbn [fst app].
  change (map ?f ?l) with (f <$> l). rewrite list_lookup_fmap, Hi.
  cbn [fmap option_fmap option_map snd]. unfold listed. now rewrite Hparse.
Qed.

Lemma X13_witness :
  decode "" = None
  /\ state with_empty_200 !! "200" = Some ""
  /\ (exists e, AssetExists "200" with_empty_200 = (Returned e, with_empty_200)
                /\ truthy e = false)
  /\ exists i,
       scan with_empty_200 !! i = Some ("200", "")
       /\ fst (drain decode (scan with_empty_200) []) !! i = Some (VStr "").
Proof.
  split; [reflexivity|]. split; [reflexivity|].
  apply (X13_empty_value_is_listed decode with_empty_200 "200"); reflexivity.
Defined.


